(** * A shallow embedding of the MCP gateway core

    The development follows the TypeScript sources of the gateway:

    - [src/auth.ts]             the bearer-token gate ([authMiddleware]);
    - [src/tools/index.ts]      the tool registry and [callTool];
    - [src/tools/filesystem.ts] the path allowlist ([getAllowedPaths], [isPathAllowed]);
    - [src/tools/system.ts]     the command whitelist ([isCommandAllowed]);
    - [src/tools/database.ts]   the [query_sqlite] handler;
    - [src/server.ts]           the session routes ([setupMCPRoutes]).

    Conventions of the embedding.

    - A JavaScript string is a [string]: a sequence of code units, of which the
      embedding covers the range 0..255 (Latin-1).  [trim] and [toLowerCase]
      are written out for that range.
    - A JavaScript number is an integer [Z] (the safe-integer range); NaN,
      infinities and fractions are outside the embedding.  Where the code
      divides two numbers ([Num.floorDiv]) the binary64 rounding of the
      quotient is written out, for every whole binary64 number.
    - An absent property ([undefined]) is [None].
    - A promise is identified with the way it settles: [Returns] or [Throws].
    - Console output is not part of the embedding.
    - Requests are served one after the other; the interleaving of two
      handlers at their [await]s is not part of the embedding.
    - What Node, Express and the MCP SDK do is written as plain functions
      ([path_resolve], [express_dispatch]) or taken as a parameter of the
      section that needs it (the SDK transport, the database handle). *)

From Stdlib Require Import ZArith NArith Ascii String List Bool Lia DecimalString.
From stdpp Require Import base option gmap strings.

Local Open Scope Z_scope.

(** ** JavaScript strings *)

Module JS.

(** [s.startsWith(p)] *)
Fixpoint startsWith (s p : string) : bool :=
  match p with
  | EmptyString => true
  | String c p' =>
      match s with
      | EmptyString => false
      | String d s' => if Ascii.eqb d c then startsWith s' p' else false
      end
  end.

(** [s.includes(w)]: [w] occurs in [s] at some position. *)
Fixpoint includes (s w : string) : bool :=
  startsWith s w ||
  match s with
  | EmptyString => false
  | String _ s' => includes s' w
  end.

(** White space and line terminators of ECMAScript, below code unit 256:
    TAB, LF, VT, FF, CR, SPACE and NO-BREAK SPACE. *)
Definition isWhiteSpace (c : ascii) : bool :=
  match N_of_ascii c with
  | 9 | 10 | 11 | 12 | 13 | 32 | 160 => true
  | _ => false
  end%N.

Fixpoint trimStart (s : string) : string :=
  match s with
  | EmptyString => EmptyString
  | String c s' => if isWhiteSpace c then trimStart s' else s
  end.

Fixpoint trimEnd (s : string) : string :=
  match s with
  | EmptyString => EmptyString
  | String c s' =>
      match trimEnd s' with
      | EmptyString => if isWhiteSpace c then EmptyString else String c EmptyString
      | r => String c r
      end
  end.

(** [s.trim()] *)
Definition trim (s : string) : string := trimEnd (trimStart s).

(** Lower-casing of one code unit below 256: A-Z, and the Latin-1 capitals
    U+00C0..U+00DE except the multiplication sign U+00D7. *)
Definition lowerChar (c : ascii) : ascii :=
  let n := N_of_ascii c in
  if ((65 <=? n) && (n <=? 90)
      || (192 <=? n) && (n <=? 222) && negb (n =? 215))%N
  then ascii_of_N (n + 32) else c.

(** [s.toLowerCase()] *)
Fixpoint toLowerCase (s : string) : string :=
  match s with
  | EmptyString => EmptyString
  | String c s' => String (lowerChar c) (toLowerCase s')
  end.

(** [s.split(sep)] for a separator of one code unit. *)
Fixpoint split (sep : ascii) (s : string) : list string :=
  match s with
  | EmptyString => [EmptyString]
  | String c s' =>
      if Ascii.eqb c sep then EmptyString :: split sep s'
      else match split sep s' with
           | h :: t => String c h :: t
           | [] => [String c EmptyString]
           end
  end.

(** [parts.join(sep)] *)
Fixpoint join (sep : string) (parts : list string) : string :=
  match parts with
  | [] => EmptyString
  | [p] => p
  | p :: rest => p +:+ sep +:+ join sep rest
  end.

(** A string in a boolean position: the empty string is falsy. *)
Definition truthy (s : string) : bool :=
  match s with EmptyString => false | _ => true end.

(** [o || ''] and the truthiness test on a possibly absent string. *)
Definition present (o : option string) : option string :=
  match o with
  | Some s => if truthy s then Some s else None
  | None => None
  end.

(** A possibly absent string in a boolean position. *)
Definition given (o : option string) : bool :=
  match present o with Some _ => true | None => false end.

(** Template rendering [`${n}`] of an integer-valued number. *)
Definition numberToString (n : Z) : string :=
  NilZero.string_of_int (Z.to_int n).

End JS.

(** ** The process environment

    [process.env] as the gateway reads it, and [process.cwd()]. *)

Record ProcessEnv := {
  MCP_TOKEN : option string;
  ALLOWED_PATHS : option string;
  cwd : string;
}.

(** ** [node:path] on POSIX

    [path.resolve] of Node for one argument: the argument is taken first and
    the working directory is prepended while the path is not absolute; the
    result is normalised segment by segment ([normalizeString]). *)

Module Path.

Definition isAbsolute (p : string) : bool :=
  match p with
  | String c _ => Ascii.eqb c "/"
  | EmptyString => false
  end.

(** [normalizeString]: empty segments and [.] are dropped, [..] removes the
    segment before it; above the root [..] is kept only when
    [allowAboveRoot].  [acc] is the result so far, last segment first. *)
Fixpoint normalizeSegments (allowAboveRoot : bool) (acc segs : list string)
  : list string :=
  match segs with
  | [] => rev acc
  | seg :: rest =>
      if String.eqb seg "" || String.eqb seg "." then
        normalizeSegments allowAboveRoot acc rest
      else if String.eqb seg ".." then
        match acc with
        | top :: acc' =>
            if String.eqb top ".." then
              normalizeSegments allowAboveRoot
                (if allowAboveRoot then ".." :: acc else acc) rest
            else normalizeSegments allowAboveRoot acc' rest
        | [] =>
            normalizeSegments allowAboveRoot
              (if allowAboveRoot then [".."] else []) rest
        end
      else normalizeSegments allowAboveRoot (seg :: acc) rest
  end.

Definition normalizeString (path : string) (allowAboveRoot : bool) : string :=
  JS.join "/" (normalizeSegments allowAboveRoot [] (JS.split "/" path)).

(** One round of the loop of [resolve]: [path] is put in front of what is
    resolved so far, unless that is absolute already or [path] is empty. *)
Definition resolveStep (path : string) (acc : string * bool) : string * bool :=
  let '(resolvedPath, resolvedAbsolute) := acc in
  if resolvedAbsolute then acc
  else if negb (JS.truthy path) then acc
  else (path +:+ "/" +:+ resolvedPath, isAbsolute path).

(** [path.resolve(p)] in working directory [wd]. *)
Definition resolve (wd p : string) : string :=
  let '(resolvedPath, resolvedAbsolute) :=
    resolveStep wd (resolveStep p (EmptyString, false)) in
  let normalized := normalizeString resolvedPath (negb resolvedAbsolute) in
  if resolvedAbsolute then "/" +:+ normalized
  else if JS.truthy normalized then normalized else ".".

End Path.

(** ** [src/tools/filesystem.ts]: the path allowlist *)

(** [getAllowedPaths]: the entries of [ALLOWED_PATHS], comma separated,
    trimmed, empty ones dropped. *)
Definition getAllowedPaths (env : ProcessEnv) : list string :=
  let paths := default EmptyString (JS.present (ALLOWED_PATHS env)) in
  List.filter JS.truthy (map JS.trim (JS.split "," paths)).

(** [isPathAllowed] *)
Definition isPathAllowed (env : ProcessEnv) (targetPath : string) : bool :=
  let allowed := getAllowedPaths env in
  if (length allowed =? 0)%nat then false
  else
    let resolved := Path.resolve (cwd env) targetPath in
    existsb (fun allowedPath =>
               let resolvedAllowed := Path.resolve (cwd env) allowedPath in
               JS.startsWith resolved resolvedAllowed)
            allowed.

(** The directory reading of containment, to compare [isPathAllowed] with:
    [path] is the directory [dir] itself or lies below it. *)
Definition insideDirectory (dir path : string) : bool :=
  String.eqb path dir || JS.startsWith path (dir +:+ "/").

(** ** [src/tools/system.ts]: the command whitelist *)

(** The members of the set [ALLOWED_COMMANDS], in insertion order. *)
Definition ALLOWED_COMMANDS : list string :=
  [ "uptime"; "hostname"; "df"; "free"; "top"; "ps"; "who"; "date"; "uname";
    "lsblk"; "lscpu"; "lsmem"; "vcgencmd";
    "cat /proc/cpuinfo"; "cat /proc/meminfo";
    "cat /sys/class/thermal/thermal_zone0/temp" ].

(** [set.has(x)] on the members of a set. *)
Definition has (set : list string) (x : string) : bool :=
  existsb (String.eqb x) set.

(** The body of [isCommandAllowed], over the whitelist it consults. *)
Definition isCommandAllowedIn (allowedCommands : list string) (cmd : string) : bool :=
  let trimmed := JS.trim cmd in
  has allowedCommands trimmed ||
  existsb (fun allowed => JS.startsWith trimmed (allowed +:+ " ")) allowedCommands.

(** [isCommandAllowed] *)
Definition isCommandAllowed (cmd : string) : bool :=
  isCommandAllowedIn ALLOWED_COMMANDS cmd.

(** ** HTTP requests and responses *)

Inductive Method := GET | POST | DELETE | PUT | PATCH | HEAD | OPTIONS.

Definition Method_eqb (a b : Method) : bool :=
  match a, b with
  | GET, GET | POST, POST | DELETE, DELETE | PUT, PUT
  | PATCH, PATCH | HEAD, HEAD | OPTIONS, OPTIONS => true
  | _, _ => false
  end.

(** A request to [/mcp]: the method, the two headers the gateway reads, and
    the parsed body (kept as text, only the SDK looks at it). *)
Record Request := {
  method : Method;
  authorization : option string;
  mcp_session_id : option string;
  body : string;
}.

(** What the caller receives: the status and the payload.  The gateway's own
    payloads are flat JSON objects with string members; the SDK transport
    writes its own. *)
Inductive Payload :=
| JsonObject (members : list (string * string))
| Raw (text : string).

Record Response := {
  status : Z;
  payload : Payload;
}.

(** [res.status(code).json(obj)] and [res.json(obj)] *)
Definition status_json (code : Z) (members : list (string * string)) : Response :=
  {| status := code; payload := JsonObject members |}.

Definition json (members : list (string * string)) : Response :=
  status_json 200 members.

(** ** [src/auth.ts]: the authentication gate *)

Inductive AuthOutcome :=
| AuthReject (res : Response)   (* a response was sent, [next] not called *)
| AuthNext.                     (* [next()] *)

(** [authMiddleware] *)
Definition authMiddleware (env : ProcessEnv) (req : Request) : AuthOutcome :=
  let authHeader := authorization req in
  match JS.present (MCP_TOKEN env) with
  | None => AuthReject (status_json 500 [("error", "Server misconfigured")])
  | Some expectedToken =>
      match JS.present authHeader with
      | None => AuthReject (status_json 401 [("error", "Authorization required")])
      | Some authHeader =>
          let parts := JS.split " " authHeader in
          let type := nth_error parts 0 in
          let token := nth_error parts 1 in
          if negb (bool_decide (type = Some "Bearer"))
             || negb (bool_decide (token = Some expectedToken))
          then AuthReject (status_json 401 [("error", "Invalid token")])
          else AuthNext
      end
  end.

(** ** [src/tools/index.ts]: the tool registry *)

(** A thrown value, as the [catch] blocks of the gateway look at it: an
    [Error] with its [message], or another value with its [String(...)]. *)
Inductive Thrown :=
| ErrorInstance (message : string)
| OtherValue (rendering : string).

(** How a call (or the promise it returns) ends. *)
Inductive Outcome (A : Type) :=
| Returns (a : A)
| Throws (e : Thrown).
Arguments Returns {A} a.
Arguments Throws {A} e.

(** [error instanceof Error ? error.message : String(error)] *)
Definition errorMessage (error : Thrown) : string :=
  match error with
  | ErrorInstance message => message
  | OtherValue rendering => rendering
  end.

Record TextContent := {
  type : string;
  text : string;
}.

(** [CallToolResult]; a result built without [isError] has [None] there. *)
Record CallToolResult := {
  content : list TextContent;
  isError : option bool;
}.

Definition textResult (t : string) : CallToolResult :=
  {| content := [ {| type := "text"; text := t |} ]; isError := None |}.

Definition errorResult (t : string) : CallToolResult :=
  {| content := [ {| type := "text"; text := t |} ]; isError := Some true |}.

Record Tool := {
  name : string;
  description : string;
}.

Section Registry.

(** The argument bag, [Record<string, unknown>]: the registry never looks
    inside it. *)
Context {Args : Type}.

Record ToolDefinition := {
  tool : Tool;
  handler : Args -> Outcome CallToolResult;
}.

(** [toolRegistry.set(definition.tool.name, definition)] *)
Definition registerTool (toolRegistry : gmap string ToolDefinition)
    (definition : ToolDefinition) : gmap string ToolDefinition :=
  <[ name (tool definition) := definition ]> toolRegistry.

(** [toolRegistry.get(name)?.handler] *)
Definition getToolHandler (toolRegistry : gmap string ToolDefinition)
    (nm : string) : option (Args -> Outcome CallToolResult) :=
  handler <$> toolRegistry !! nm.

(** [callTool] *)
Definition callTool (toolRegistry : gmap string ToolDefinition)
    (nm : string) (args : Args) : Outcome CallToolResult :=
  match getToolHandler toolRegistry nm with
  | None => Returns (errorResult ("Unknown tool: " +:+ nm))
  | Some h =>
      match h args with
      | Returns r => Returns r
      | Throws error =>
          let message := errorMessage error in
          Returns (errorResult ("Tool error: " +:+ message))
      end
  end.

End Registry.

Arguments ToolDefinition : clear implicits.

(** ** [src/tools/database.ts]: the [query_sqlite] handler *)

(** The arguments [query_sqlite] reads, at the types its schema declares. *)
Record QueryArgs := {
  query : option string;
  limit : option Z;
}.

(** What the handler asks of the database handle. *)
Inductive DbCall :=
| PrepareAll (sql : string)     (* [db.prepare(sql).all()] *)
| Close.                        (* [db.close()] *)

Definition forbidden : list string :=
  [ "insert"; "update"; "delete"; "drop"; "alter"; "create"; "attach"; "detach" ].

(** The [for (const word of forbidden)] loop: the first word found. *)
Fixpoint firstForbidden (normalized : string) (words : list string) : option string :=
  match words with
  | [] => None
  | word :: rest =>
      if JS.includes normalized word then Some word
      else firstForbidden normalized rest
  end.

Section Database.

(** The rows of a result set and [JSON.stringify({rowCount, rows}, null, 2)]. *)
Context {Row : Type}.
Variable stringifyRows : nat -> list Row -> string.

(** An open handle: what [db.prepare(sql).all()] does. *)
Definition Database := string -> Outcome (list Row).

(** The handler of [query_sqlite], with the calls it makes on the handle.
    [db] is what [openDatabase()] returned. *)
Definition query_sqlite (db : option Database) (args : QueryArgs)
  : list DbCall * Outcome CallToolResult :=
  match db with
  | None => ([], Returns (errorResult "Database not configured or not available"))
  | Some db =>
      match query args with
      | None =>
          (* [undefined.trim()] *)
          ([], Throws (ErrorInstance
                         "Cannot read properties of undefined (reading 'trim')"))
      | Some q =>
          let query := JS.trim q in
          let limit :=
            Z.min (match limit args with
                   | Some l => if l =? 0 then 100 else l
                   | None => 100
                   end) 1000 in
          let normalized := JS.toLowerCase query in
          if negb (JS.startsWith normalized "select") then
            ([], Returns (errorResult
               "Only SELECT queries are allowed. Use list_tables to see available tables."))
          else
            match firstForbidden normalized forbidden with
            | Some word =>
                ([], Returns (errorResult
                                ("Query contains forbidden keyword: " +:+ word)))
            | None =>
                let finalQuery :=
                  if negb (JS.includes normalized "limit")
                  then query +:+ " LIMIT " +:+ JS.numberToString limit
                  else query in
                match db finalQuery with
                | Returns rows =>
                    ([PrepareAll finalQuery; Close],
                     Returns (textResult (stringifyRows (length rows) rows)))
                | Throws error =>
                    ([PrepareAll finalQuery; Close],
                     Returns (errorResult ("Query failed: " +:+ errorMessage error)))
                end
            end
      end
  end.

(** The handler as registered. *)
Definition query_sqlite_tool (db : option Database) : ToolDefinition QueryArgs :=
  {| tool := {| name := "query_sqlite";
                description := "Execute a read-only SQL query on the configured SQLite database. Only SELECT queries are allowed." |};
     handler := fun args => snd (query_sqlite db args) |}.

(** A call of the handler with the database open, on the query text [q]
    and the optional [limit]. *)
Definition runQuery (db : Database) (q : string) (l : option Z)
  : list DbCall * Outcome CallToolResult :=
  query_sqlite (Some db) {| query := Some q; limit := l |}.

(** The statements the handler hands to the database. *)
Definition executed (calls : list DbCall) : list string :=
  flat_map (fun c => match c with PrepareAll sql => [sql] | Close => [] end) calls.

End Database.

(** ** [src/server.ts]: the session routes *)

(** A [StreamableHTTPServerTransport] as the routes see it: the session id
    the SDK has given it, if any. *)
Record Transport := {
  sessionId : option string;
}.

(** What one [transport.handleRequest(req, res, body)] does that the routes
    can observe, besides the response it writes: it assigns the session id
    (an initialisation; [onsessioninitialized] runs), or it closes the
    transport (a teardown; [onclose] runs), or neither. *)
Inductive SdkAction :=
| Answer
| Initialize (newSessionId : string)
| CloseTransport.

Record SdkEffect := {
  reply : Response;
  action : SdkAction;
}.

Section Server.

(** The SDK side: [W] is whatever the SDK keeps (its streams, its source of
    fresh identifiers); [handleRequest] is the transport's method. *)
Context {W : Type}.
Variable handleRequest : W -> Transport -> Request -> W * SdkEffect.
Variable env : ProcessEnv.

(** The state of [setupMCPRoutes]: the map [transports], and the SDK's. *)
Record State := {
  transports : gmap string Transport;
  world : W;
}.

(** A route handler either answers or calls [next()]. *)
Inductive Handled :=
| Sent (res : Response)
| PassedOn.

(** [transports.get(sessionId)] under the test
    [sessionId && transports.has(sessionId)]. *)
Definition lookupSession (st : State) (sid : option string) : option Transport :=
  match JS.present sid with
  | Some s => transports st !! s
  | None => None
  end.

(** [sessionId && transports.has(sessionId)] *)
Definition known (st : State) (sid : option string) : bool :=
  bool_decide (is_Some (lookupSession st sid)).

(** [onsessioninitialized]: [transports.set(newSessionId, transport)], for
    the transport that now carries [newSessionId]. *)
Definition onsessioninitialized (m : gmap string Transport)
    (newSessionId : string) : gmap string Transport :=
  <[ newSessionId := {| sessionId := Some newSessionId |} ]> m.

(** [transport.onclose]: the entry under the transport's own id is deleted. *)
Definition onclose (m : gmap string Transport) (transport : Transport)
  : gmap string Transport :=
  match JS.present (sessionId transport) with
  | Some sid => delete sid m
  | None => m
  end.

(** [await transport.handleRequest(req, res, req.body)] with the two
    callbacks installed on the transport. *)
Definition serve (st : State) (transport : Transport) (req : Request)
  : State * Response :=
  let '(w, eff) := handleRequest (world st) transport req in
  let m :=
    match action eff with
    | Answer => transports st
    | Initialize newSessionId =>
        onsessioninitialized (transports st) newSessionId
    | CloseTransport => onclose (transports st) transport
    end in
  ({| transports := m; world := w |}, reply eff).

(** The handler of [app.all('/mcp', ...)].  For a new transport
    [server.connect(transport)] comes first; it is taken to succeed. *)
Definition mcpHandler (st : State) (req : Request) : State * Handled :=
  let sid := mcp_session_id req in
  match lookupSession st sid with
  | Some transport =>
      (* Reuse existing transport *)
      let '(st', res) := serve st transport req in (st', Sent res)
  | None =>
      if Method_eqb (method req) POST && negb (JS.given sid) then
        (* New session - create transport *)
        let '(st', res) := serve st {| sessionId := None |} req in (st', Sent res)
      else if JS.given sid && negb (known st sid) then
        (* Invalid session *)
        (st, Sent (status_json 400 [("error", "Invalid session ID")]))
      else
        (* GET without session - return info *)
        (st, Sent (json [("name", "pi-mcp-server"); ("version", "1.0.0");
                         ("transport", "streamable-http")]))
  end.

(** The handler of [app.delete('/mcp', ...)]: [transport.close()] runs
    [onclose], then the entry is deleted. *)
Definition deleteHandler (st : State) (req : Request) : State * Handled :=
  match JS.present (mcp_session_id req) with
  | Some sid =>
      match transports st !! sid with
      | Some transport =>
          let m1 := onclose (transports st) transport in
          let m2 := delete sid m1 in
          ({| transports := m2; world := world st |},
           Sent (json [("status", "closed")]))
      | None => (st, Sent (status_json 404 [("error", "Session not found")]))
      end
  | None => (st, Sent (status_json 404 [("error", "Session not found")]))
  end.

(** A route of the Express application for the path [/mcp]: the methods it
    is registered for, and its handlers after [authMiddleware]. *)
Record Route := {
  accepts : Method -> bool;
  run : State -> Request -> State * Handled;
}.

(** [authMiddleware] in front of a handler. *)
Definition guarded (h : State -> Request -> State * Handled)
    (st : State) (req : Request) : State * Handled :=
  match authMiddleware env req with
  | AuthReject res => (st, Sent res)
  | AuthNext => h st req
  end.

(** The routes in the order [setupMCPRoutes] registers them. *)
Definition routes : list Route :=
  [ {| accepts := fun _ => true; run := guarded mcpHandler |};
    {| accepts := fun m => Method_eqb m DELETE; run := guarded deleteHandler |} ].

(** Express: the routes are tried in registration order; the first one that
    accepts the method runs, and the later ones only if it calls [next()].
    With no route left Express answers 404 itself. *)
Fixpoint express_dispatch (rs : list Route) (st : State) (req : Request)
  : State * Response :=
  match rs with
  | [] => (st, {| status := 404; payload := Raw "Not Found" |})
  | r :: rest =>
      if accepts r (method req) then
        match run r st req with
        | (st', Sent res) => (st', res)
        | (st', PassedOn) => express_dispatch rest st' req
        end
      else express_dispatch rest st req
  end.

(** One request to [/mcp]. *)
Definition mcp (st : State) (req : Request) : State * Response :=
  express_dispatch routes st req.

(** A sequence of requests, one after the other. *)
Fixpoint mcp_run (st : State) (reqs : list Request) : State * list Response :=
  match reqs with
  | [] => (st, [])
  | req :: rest =>
      let '(st1, res) := mcp st req in
      let '(st2, ress) := mcp_run st1 rest in
      (st2, res :: ress)
  end.

(** Every entry of the map is filed under the id its transport carries. *)
Definition filed_by_id (m : gmap string Transport) : Prop :=
  forall sid transport, m !! sid = Some transport -> sessionId transport = Some sid.

End Server.

Arguments State : clear implicits.
Arguments Route : clear implicits.

(** ** Reading results *)

(** A result is error-flagged when [isError] is [true]. *)
Definition errorFlagged (r : CallToolResult) : Prop := isError r = Some true.

(** The text of a result contains [s]. *)
Definition mentions (r : CallToolResult) (s : string) : Prop :=
  Exists (fun c => JS.includes (text c) s = true) (content r).

(** ** Instances used to run the definitions *)

(** A database handle with one table [t] of two rows; any statement that
    does not start with [SELECT] after trimming is a syntax error here. *)
Definition demoDb : @Database string :=
  fun sql =>
    if JS.startsWith (JS.toLowerCase sql) "select"
    then Returns ["{id: 1}"; "{id: 2}"]
    else Throws (ErrorInstance ("near " +:+ sql +:+ ": syntax error")).

Definition demoStringify (n : nat) (rows : list string) : string :=
  "rowCount " +:+ JS.numberToString (Z.of_nat n) +:+ " rows " +:+ JS.join "," rows.

Definition demoRegistry : gmap string (ToolDefinition QueryArgs) :=
  registerTool ∅ (query_sqlite_tool demoStringify (Some demoDb)).

Definition demoEnv : ProcessEnv :=
  {| MCP_TOKEN := Some "s3cret"; ALLOWED_PATHS := Some "/data"; cwd := "/home/pi" |}.

(** An SDK transport that numbers its sessions: a first [POST] without a
    session is answered by assigning the next identifier, a [DELETE] closes
    the transport, anything else is answered and nothing more. *)
Fixpoint sessionName (n : nat) : string :=
  match n with
  | O => "#"
  | S n' => String "i" (sessionName n')
  end.

Definition demoSdk (w : nat) (t : Transport) (req : Request) : nat * SdkEffect :=
  match sessionId t, method req with
  | None, POST =>
      (S w, {| reply := {| status := 200; payload := Raw "initialized" |};
               action := Initialize (sessionName w) |})
  | Some _, DELETE =>
      (w, {| reply := {| status := 200; payload := Raw "" |};
             action := CloseTransport |})
  | _, _ =>
      (w, {| reply := {| status := 200; payload := Raw "ok" |};
             action := Answer |})
  end.

Definition demoState : State nat :=
  {| transports := {[ "s1" := {| sessionId := Some "s1" |} ]}; world := 0%nat |}.

(** The environment with [ALLOWED_PATHS] set to [paths], in working
    directory [wd]. *)
Definition allowing (paths : string) (wd : string) : ProcessEnv :=
  {| MCP_TOKEN := None; ALLOWED_PATHS := Some paths; cwd := wd |}.

(** The rejections the gateway writes: 401 with a message, and the answer
    to a session id that is not in the map. *)
Definition unauthorized (message : string) : Response :=
  status_json 401 [("error", message)].

Definition invalidSession : Response :=
  status_json 400 [("error", "Invalid session ID")].

(** Requests without an [Authorization] header, and with a bearer token. *)
Definition anonymous (m : Method) (sid : option string) : Request :=
  {| method := m; authorization := None; mcp_session_id := sid; body := "" |}.

Definition bearer (token : string) (m : Method) (sid : option string) : Request :=
  {| method := m; authorization := Some ("Bearer " +:+ token);
     mcp_session_id := sid; body := "" |}.

(** ** More of the JavaScript strings and of [node:path] *)

Module Str.

(** The line feed, as in ['\n']. *)
Definition lf : string := String "010" EmptyString.

(** [s.slice(n)]: [s] without its first [n] code units. *)
Fixpoint drop (n : nat) (s : string) : string :=
  match n, s with
  | O, _ => s
  | S n', String _ s' => drop n' s'
  | S _, EmptyString => EmptyString
  end.

(** [s.slice(0, -1)]: [s] without its last code unit. *)
Fixpoint dropLast (s : string) : string :=
  match s with
  | EmptyString => EmptyString
  | String c EmptyString => EmptyString
  | String c s' => String c (dropLast s')
  end.

(** [s.endsWith(p)] *)
Fixpoint endsWith (s p : string) : bool :=
  String.eqb s p ||
  match s with
  | EmptyString => false
  | String _ s' => endsWith s' p
  end.

(** The text before and after the first occurrence of [needle] in [s]:
    [s.slice(0, i)] and [s.slice(i + needle.length)] for
    [i = s.indexOf(needle)], when [i] is not [-1]. *)
Fixpoint cut (needle s : string) : option (string * string) :=
  if JS.startsWith s needle then Some (EmptyString, drop (String.length needle) s)
  else match s with
       | EmptyString => None
       | String c s' =>
           match cut needle s' with
           | Some (before, after) => Some (String c before, after)
           | None => None
           end
       end.

End Str.

(** [path.dirname] of Node on POSIX: the path up to the last [/] that has a
    name after it, trailing slashes aside; the first character is never
    taken for that slash. *)
Fixpoint dirnameScan (matchedSlash : bool) (reversed : list ascii)
  : option (list ascii) :=
  match reversed with
  | [] => None
  | c :: rest =>
      if Ascii.eqb c "/" then
        if matchedSlash then dirnameScan true rest else Some rest
      else dirnameScan false rest
  end.

Definition dirname (path : string) : string :=
  match path with
  | EmptyString => "."
  | String c0 tail =>
      let hasRoot := Ascii.eqb c0 "/" in
      match dirnameScan true (rev (list_ascii_of_string tail)) with
      | None => if hasRoot then "/" else "."
      | Some [] => if hasRoot then "//" else String c0 EmptyString
      | Some before => String c0 (string_of_list_ascii (rev before))
      end
  end.

(** ** [src/tools/filesystem.ts]: [read_file] and [write_file] *)

(** The calls a handler makes on [node:fs/promises]. *)
Inductive FsCall :=
| ReadFile (path : string)
| Mkdir (path : string)                 (* [{ recursive: true }] *)
| WriteFile (path data : string).

(** The file system as the handlers meet it: how each call settles. *)
Record Fs := {
  readFile : string -> Outcome string;
  mkdir : string -> Outcome unit;
  writeFile : string -> string -> Outcome unit;
}.

Definition accessDenied (filePath : string) : CallToolResult :=
  errorResult ("Access denied: " +:+ filePath +:+ " is not in allowed paths").

(** The handler of [read_file], on the argument [path]. *)
Definition read_file (env : ProcessEnv) (fs : Fs) (filePath : string)
  : list FsCall * Outcome CallToolResult :=
  if negb (isPathAllowed env filePath) then ([], Returns (accessDenied filePath))
  else
    match readFile fs filePath with
    | Returns data => ([ReadFile filePath], Returns (textResult data))
    | Throws error =>
        ([ReadFile filePath],
         Returns (errorResult ("Failed to read file: " +:+ errorMessage error)))
    end.

(** The handler of [write_file], on the arguments [path] and [content]. *)
Definition write_file (env : ProcessEnv) (fs : Fs) (filePath data : string)
  : list FsCall * Outcome CallToolResult :=
  if negb (isPathAllowed env filePath) then ([], Returns (accessDenied filePath))
  else
    match mkdir fs (dirname filePath) with
    | Throws error =>
        ([Mkdir (dirname filePath)],
         Returns (errorResult ("Failed to write file: " +:+ errorMessage error)))
    | Returns _ =>
        match writeFile fs filePath data with
        | Returns _ =>
            ([Mkdir (dirname filePath); WriteFile filePath data],
             Returns (textResult ("Successfully wrote to " +:+ filePath)))
        | Throws error =>
            ([Mkdir (dirname filePath); WriteFile filePath data],
             Returns (errorResult ("Failed to write file: " +:+ errorMessage error)))
        end
    end.

(** ** [src/tools/system.ts]: [run_command] *)

(** The handler of [run_command], on the argument [command]; [exec] is
    [execAsync(command, { timeout: 30000 })], settling with [stdout] and
    [stderr] or with an error.  The first component lists what was handed
    to the shell. *)
Definition run_command (exec : string -> Outcome (string * string))
    (command : string) : list string * Outcome CallToolResult :=
  if negb (isCommandAllowed command) then
    ([], Returns (errorResult
           ("Command not allowed: " +:+ command +:+ Str.lf +:+ Str.lf +:+
            "Allowed commands: " +:+ JS.join ", " ALLOWED_COMMANDS)))
  else
    match exec command with
    | Returns (stdout, stderr) =>
        let output :=
          stdout +:+ (if JS.truthy stderr
                      then Str.lf +:+ "STDERR:" +:+ Str.lf +:+ stderr
                      else EmptyString) in
        ([command],
         Returns (textResult (if JS.truthy output then output else "(no output)")))
    | Throws error =>
        ([command],
         Returns (errorResult ("Command failed: " +:+ errorMessage error)))
    end.

(** ** [src/tools/unifi.ts]: the uptime text and the security score *)

(** The numbers of the uptime text are computed in binary64 arithmetic.
    A whole binary64 number is written as the integer it is: an integer of
    at most 53 significant bits, below [2^1024]. *)
Module Num.

Definition isDouble (z : Z) : bool :=
  let a := Z.abs z in
  (a <? 2 ^ 1024) && (a mod 2 ^ Z.max 0 (Z.log2 a - 52) =? 0).

(** [a / b] rounded to the nearest integer, ties to the even one, for
    [0 <= a] and [0 < b]. *)
Definition roundHalfEven (a b : Z) : Z :=
  let q := a / b in
  let r := a mod b in
  if 2 * r <? b then q
  else if b <? 2 * r then q + 1
  else if Z.even q then q else q + 1.

(** The binade of [n / d] for [0 < n] and [0 < d]: the [L] with
    [2^L <= n / d < 2^(L+1)]. *)
Definition binade (n d : Z) : Z :=
  let k := Z.log2 n - Z.log2 d in
  if n * 2 ^ Z.max 0 (- k) <? d * 2 ^ Z.max 0 k then k - 1 else k.

(** [Math.floor(n / d)] for whole binary64 numbers [n] and [0 < d < 2^53].
    The quotient is the binary64 number nearest to [n / d], ties to even:
    [m * 2^e] with [m] the rounding of [|n| / (d * 2^e)] and [e] the binade
    of the quotient less 52 (the quotient is neither subnormal nor
    infinite for such [n] and [d]); [Math.floor] of it is exact. *)
Definition floorDiv (n d : Z) : Z :=
  if n =? 0 then 0
  else
    let e := binade (Z.abs n) d - 52 in
    let m := roundHalfEven (Z.abs n * 2 ^ Z.max 0 (- e)) (d * 2 ^ Z.max 0 e) in
    if 0 <=? e then Z.sgn n * m * 2 ^ e
    else (Z.sgn n * m) / 2 ^ (- e).

End Num.

(** The hours and minutes of
    [`${Math.floor(uptime / 3600)}h ${Math.floor((uptime % 3600) / 60)}m`],
    for an uptime that is a whole number of seconds ([%] is exact on
    binary64 numbers and takes the sign of the dividend). *)
Definition uptimeHours (uptime : Z) : Z := Num.floorDiv uptime 3600.
Definition uptimeMinutes (uptime : Z) : Z := Num.floorDiv (Z.rem uptime 3600) 60.

(** The IPS settings [unifi_get_security_score] reads off [ipsData.data[0]]:
    the mode, and the three switches as they count in a condition. *)
Record IpsSettings := {
  ips_mode : option string;
  ad_blocking_enabled : bool;
  dns_filtering_enabled : bool;
  honeypot_enabled : bool;
}.

Definition modeIs (ips : IpsSettings) (m : string) : bool :=
  bool_decide (ips_mode ips = Some m).

(** [score] before the final [Math.min(100, score)]. *)
Definition rawScore (ips : IpsSettings) (firewallRules : Z) : Z :=
  let score := 0 in
  let score :=
    if modeIs ips "ips" then score + 30
    else if modeIs ips "ids" then score + 15 else score in
  let score := if ad_blocking_enabled ips then score + 15 else score in
  let score := if dns_filtering_enabled ips then score + 20 else score in
  let score := if honeypot_enabled ips then score + 10 else score in
  let score :=
    if 0 <? firewallRules then score + Z.min 25 (firewallRules * 5) else score in
  score.

(** The [score] member of the result. *)
Definition securityScore (ips : IpsSettings) (firewallRules : Z) : Z :=
  Z.min 100 (rawScore ips firewallRules).

(** The [recommendations] member of the result. *)
Definition recommendations (ips : IpsSettings) : list string :=
  (if modeIs ips "disabled"
   then ["Enable Threat Management (IPS) for active threat blocking"]
   else if modeIs ips "ids"
   then ["Consider upgrading from IDS to IPS for active threat blocking"]
   else [])
  ++ (if negb (ad_blocking_enabled ips)
      then ["Enable ad blocking to reduce malicious ad exposure"] else [])
  ++ (if negb (dns_filtering_enabled ips)
      then ["Enable DNS filtering for content-level protection"] else [])
  ++ (if negb (honeypot_enabled ips)
      then ["Enable honeypot to detect internal network scanning"] else []).

(** A file system with one readable file, where directories can be made
    under [/data] only. *)
Definition demoFs : Fs :=
  {| readFile := fun p => if String.eqb p "/data/a.txt" then Returns "hello"
                          else Throws (ErrorInstance "ENOENT: no such file or directory");
     mkdir := fun p => if JS.startsWith p "/data" then Returns tt
                       else Throws (ErrorInstance "EACCES: permission denied");
     writeFile := fun _ _ => Returns tt |}.

(** ** [src/tools/database.ts]: [get_table_schema] *)

(** The double quote, as a string of one code unit. *)
Definition dq : string := String "034" EmptyString.

(** The character classes of [/^[a-zA-Z_][a-zA-Z0-9_]*$/]. *)
Definition isIdentStart (c : ascii) : bool :=
  let n := N_of_ascii c in
  ((65 <=? n) && (n <=? 90) || (97 <=? n) && (n <=? 122) || (n =? 95))%N.

Definition isIdentChar (c : ascii) : bool :=
  isIdentStart c || (let n := N_of_ascii c in (48 <=? n) && (n <=? 57))%N.

Fixpoint allChars (p : ascii -> bool) (s : string) : bool :=
  match s with
  | EmptyString => true
  | String c s' => p c && allChars p s'
  end.

(** [/^[a-zA-Z_][a-zA-Z0-9_]*$/.test(tableName)] *)
Definition validTableName (tableName : string) : bool :=
  match tableName with
  | EmptyString => false
  | String c rest => isIdentStart c && allChars isIdentChar rest
  end.

(** What [get_table_schema] asks of the database handle. *)
Inductive SchemaCall :=
| StmtAll (sql : string)      (* [db.prepare(sql).all()] *)
| StmtGet (sql : string)      (* [db.prepare(sql).get()] *)
| CloseDb.                    (* [db.close()] *)

Section Schema.

Context {Row : Type}.

(** An open handle: [.all()] gives rows, [.get()] a row or [undefined]. *)
Record SchemaDb := {
  stmtAll : string -> Outcome (list Row);
  stmtGet : string -> Outcome (option Row);
}.

(** [JSON.stringify({ table, rowCount, columns, indexes, foreignKeys }, null, 2)],
    from the table name, the count row, and the three lists of rows. *)
Variable stringifySchema : string -> Row -> list Row -> list Row -> list Row -> string.

Definition pragma (what tableName : string) : string :=
  "PRAGMA " +:+ what +:+ "(" +:+ dq +:+ tableName +:+ dq +:+ ")".

Definition countQuery (tableName : string) : string :=
  "SELECT COUNT(*) as count FROM " +:+ dq +:+ tableName +:+ dq.

Definition schemaFailure (calls : list SchemaCall) (error : Thrown)
  : list SchemaCall * Outcome CallToolResult :=
  (calls ++ [CloseDb],
   Returns (errorResult ("Failed to get schema: " +:+ errorMessage error))).

(** The handler of [get_table_schema]; [db] is what [openDatabase()]
    returned and [table] the argument, which the test and the templates
    read as the text [undefined] when it is absent. *)
Definition get_table_schema (db : option SchemaDb) (table : option string)
  : list SchemaCall * Outcome CallToolResult :=
  match db with
  | None => ([], Returns (errorResult "Database not configured or not available"))
  | Some db =>
      let tableName := default "undefined" table in
      if negb (validTableName tableName) then
        ([], Returns (errorResult "Invalid table name"))
      else
        let q1 := pragma "table_info" tableName in
        let q2 := pragma "index_list" tableName in
        let q3 := pragma "foreign_key_list" tableName in
        let q4 := countQuery tableName in
        match stmtAll db q1 with
        | Throws e => schemaFailure [StmtAll q1] e
        | Returns [] =>
            ([StmtAll q1; CloseDb],
             Returns (errorResult ("Table not found: " +:+ tableName)))
        | Returns columns =>
            match stmtAll db q2 with
            | Throws e => schemaFailure [StmtAll q1; StmtAll q2] e
            | Returns indexes =>
                match stmtAll db q3 with
                | Throws e => schemaFailure [StmtAll q1; StmtAll q2; StmtAll q3] e
                | Returns foreignKeys =>
                    match stmtGet db q4 with
                    | Throws e =>
                        schemaFailure
                          [StmtAll q1; StmtAll q2; StmtAll q3; StmtGet q4] e
                    | Returns None =>
                        (* [undefined.count] *)
                        schemaFailure
                          [StmtAll q1; StmtAll q2; StmtAll q3; StmtGet q4]
                          (ErrorInstance
                             "Cannot read properties of undefined (reading 'count')")
                    | Returns (Some countResult) =>
                        ([StmtAll q1; StmtAll q2; StmtAll q3; StmtGet q4; CloseDb],
                         Returns (textResult
                           (stringifySchema tableName countResult
                              columns indexes foreignKeys)))
                    end
                end
            end
        end
  end.

(** The statements among the calls. *)
Definition statements (calls : list SchemaCall) : list string :=
  flat_map (fun c => match c with
                     | StmtAll sql | StmtGet sql => [sql]
                     | CloseDb => []
                     end) calls.

End Schema.

Arguments SchemaDb : clear implicits.

(** A handle that knows the table [notes], with two columns. *)
Definition demoSchemaDb : SchemaDb string :=
  {| stmtAll := fun sql =>
       if JS.includes sql "notes" then Returns ["id"; "title"] else Returns [];
     stmtGet := fun _ => Returns (Some "2") |}.

Definition demoStringifySchema (t : string) (count : string)
    (columns indexes foreignKeys : list string) : string :=
  t +:+ " " +:+ count +:+ " " +:+ JS.join "," columns.

(** ** [src/tools/obsidian.ts]: frontmatter and wikilinks *)

(** A value of the frontmatter: the text after the colon, or the items of
    an inline array. *)
Inductive FmValue :=
| FmString (s : string)
| FmArray (items : list string).

Definition isQuote (c : ascii) : bool :=
  (N_of_ascii c =? 34)%N || (N_of_ascii c =? 39)%N.

(** [s.replace(/^["']|["']$/g, '')]: a quote at the start goes, and a quote
    at the end of what is left goes. *)
Definition stripQuotes (s : string) : string :=
  let s1 := match s with
            | String c r => if isQuote c then r else s
            | EmptyString => EmptyString
            end in
  if Str.endsWith s1 dq || Str.endsWith s1 "'" then
    match s1 with EmptyString => EmptyString | _ => Str.dropLast s1 end
  else s1.

(** The value of one line, from the text after the colon. *)
Definition parseValue (after : string) : FmValue :=
  let value := JS.trim after in
  if negb (JS.truthy value) then FmString value
  else if JS.startsWith value "[" && Str.endsWith value "]" then
    FmArray (map (fun s => stripQuotes (JS.trim s))
                 (JS.split "," (Str.dropLast (Str.drop 1 value))))
  else FmString value.

(** One round of the loop over the lines: [frontmatter[key] = value] when
    the line has a colon that is not its first character.  Assigning to the
    key [__proto__] of an object literal creates no property. *)
Definition parseLine (frontmatter : gmap string FmValue) (line : string)
  : gmap string FmValue :=
  match Str.cut ":" line with
  | Some (before, after) =>
      if JS.truthy before then
        let key := JS.trim before in
        if String.eqb key "__proto__" then frontmatter
        else <[ key := parseValue after ]> frontmatter
      else frontmatter
  | None => frontmatter
  end.

Definition parseYaml (yamlStr : string) : gmap string FmValue :=
  fold_left parseLine (JS.split "010" yamlStr) ∅.

(** The pattern of [content.match]: three dashes and a line feed at the
    very start, the shortest text up to a line feed, three dashes and a line
    feed, and then everything to the end.  These are its two fences. *)
Definition fenceOpen : string := "---" +:+ Str.lf.
Definition fenceClose : string := Str.lf +:+ "---" +:+ Str.lf.

(** [parseFrontmatter]: the frontmatter and the body. *)
Definition parseFrontmatter (text : string) : gmap string FmValue * string :=
  if JS.startsWith text fenceOpen then
    match Str.cut fenceClose (Str.drop 4 text) with
    | Some (yamlStr, body) => (parseYaml yamlStr, body)
    | None => (∅, text)
    end
  else (∅, text).

(** The longest run of code units that satisfy [keep] at the start of [s],
    and the rest. *)
Fixpoint span (keep : ascii -> bool) (s : string) : string * string :=
  match s with
  | EmptyString => (EmptyString, EmptyString)
  | String c s' =>
      if keep c then let '(run, rest) := span keep s' in (String c run, rest)
      else (EmptyString, s)
  end.

Definition notBracketNorBar (c : ascii) : bool :=
  negb (Ascii.eqb c "]") && negb (Ascii.eqb c "|").

Definition notBracket (c : ascii) : bool := negb (Ascii.eqb c "]").

(** A match of [/\[\[([^\]|]+)(?:\|[^\]]+)?\]\]/] at the start of [s]: the
    first group and the length of the match. *)
Definition matchLink (s : string) : option (string * nat) :=
  if JS.startsWith s "[[" then
    let '(target, r1) := span notBracketNorBar (Str.drop 2 s) in
    if negb (JS.truthy target) then None
    else
      match r1 with
      | String "|" r2 =>
          let '(alias, r3) := span notBracket r2 in
          if negb (JS.truthy alias) then None
          else if JS.startsWith r3 "]]"
          then Some (target, (2 + String.length target + 1 + String.length alias + 2)%nat)
          else None
      | _ =>
          if JS.startsWith r1 "]]"
          then Some (target, (2 + String.length target + 2)%nat)
          else None
      end
  else None.

(** The loop [while ((match = regex.exec(content)) !== null)]: the matches
    from left to right, each search starting where the last match ended.
    [skip] counts the code units of the last match still to pass. *)
Fixpoint scanLinks (skip : nat) (s : string) : list string :=
  match s with
  | EmptyString => []
  | String _ s' =>
      match skip with
      | S k => scanLinks k s'
      | O =>
          match matchLink s with
          | Some (target, len) => target :: scanLinks (len - 1) s'
          | None => scanLinks 0 s'
          end
      end
  end.

(** [[...new Set(links)]]: the first occurrence of each link, in order. *)
Fixpoint dedupe (seen links : list string) : list string :=
  match links with
  | [] => []
  | l :: rest =>
      if has seen l then dedupe seen rest
      else l :: dedupe (l :: seen) rest
  end.

(** [extractWikilinks] *)
Definition extractWikilinks (text : string) : list string :=
  dedupe [] (scanLinks 0 text).

(** Not an opening bracket. *)
Definition notOpenBracket (c : ascii) : bool := negb (Ascii.eqb c "[").

(** ** [src/tools/unifi.ts]: configuration, requests, [unifi_block_client] *)

(** The variables of [process.env] the UniFi tools read. *)
Record UniFiEnv := {
  UNIFI_HOST : option string;
  UNIFI_API_KEY : option string;
  UNIFI_SITE : option string;
}.

Record UniFiConfig := {
  host : string;
  apiKey : string;
  site : string;
}.

(** [getUniFiConfig] *)
Definition getUniFiConfig (env : UniFiEnv) : option UniFiConfig :=
  let site := default "default" (JS.present (UNIFI_SITE env)) in
  match JS.present (UNIFI_HOST env), JS.present (UNIFI_API_KEY env) with
  | Some host, Some apiKey => Some {| host := host; apiKey := apiKey; site := site |}
  | _, _ => None
  end.

(** [networkApi] *)
Definition networkApi (env : UniFiEnv) (path : string) : string :=
  let config := getUniFiConfig env in
  let site := default "default" (JS.present (site <$> config)) in
  "/proxy/network/api/s/" +:+ site +:+ "/" +:+ path.

(** A call of [fetch]: the URL, the method, the [X-API-KEY] header, and the
    object given to [JSON.stringify] for the body, if any. *)
Record FetchCall := {
  url : string;
  fetchMethod : Method;
  xApiKey : string;
  jsonBody : option (list (string * string));
}.

(** What the code reads of a response. *)
Record FetchResponse := {
  ok : bool;
  responseStatus : Z;
  responseText : Outcome string;     (* [await response.text()] *)
}.

Section UniFi.

(** [fetch], and the parsed body [response.json()] of a response. *)
Context {Data : Type}.
Variable fetch : FetchCall -> Outcome FetchResponse.
Variable responseJson : FetchResponse -> Outcome Data.

(** [unifiRequest], with the calls of [fetch] it makes. *)
Definition unifiRequest (env : UniFiEnv) (endpoint : string) (m : Method)
    (requestBody : option (list (string * string)))
  : list FetchCall * Outcome Data :=
  match getUniFiConfig env with
  | None =>
      ([], Throws (ErrorInstance
         "UniFi not configured. Set UNIFI_HOST and UNIFI_API_KEY environment variables."))
  | Some config =>
      let call := {| url := "https://" +:+ host config +:+ endpoint;
                     fetchMethod := m;
                     xApiKey := apiKey config;
                     jsonBody := requestBody |} in
      match fetch call with
      | Throws e => ([call], Throws e)
      | Returns response =>
          if negb (ok response) then
            match responseText response with
            | Throws e => ([call], Throws e)
            | Returns t =>
                ([call], Throws (ErrorInstance
                   ("UniFi API error (" +:+ JS.numberToString (responseStatus response)
                    +:+ "): " +:+ t)))
            end
          else ([call], responseJson response)
      end
  end.

(** The handler of [unifi_block_client], on the argument [mac]. *)
Definition unifi_block_client (env : UniFiEnv) (macArg : option string)
  : list FetchCall * Outcome CallToolResult :=
  match macArg with
  | None =>
      (* [undefined.toLowerCase()] *)
      ([], Throws (ErrorInstance
                     "Cannot read properties of undefined (reading 'toLowerCase')"))
  | Some m =>
      let mac := JS.toLowerCase m in
      match unifiRequest env (networkApi env "cmd/stamgr") POST
              (Some [("cmd", "block-sta"); ("mac", mac)]) with
      | (calls, Returns _) =>
          (calls, Returns (textResult ("Successfully blocked client: " +:+ mac)))
      | (calls, Throws error) =>
          (calls, Returns (errorResult
                             ("Failed to block client: " +:+ errorMessage error)))
      end
  end.

End UniFi.

(** A controller that refuses every request. *)
Definition refusingFetch (call : FetchCall) : Outcome FetchResponse :=
  Returns {| ok := false; responseStatus := 403; responseText := Returns "Forbidden" |}.

Definition demoUniFiEnv : UniFiEnv :=
  {| UNIFI_HOST := Some "192.168.1.1"; UNIFI_API_KEY := Some "k3y";
     UNIFI_SITE := Some "" |}.

(** ** [src/tools/obsidian.ts]: the matches of [search_notes] in one note *)

(** [s.slice(0, n)] *)
Fixpoint takeChars (n : nat) (s : string) : string :=
  match n, s with
  | S n', String c s' => String c (takeChars n' s')
  | _, _ => EmptyString
  end.

(** The loop over the lines of a note: line number and text, cut at 200
    code units, of every line that includes the pattern.  [i] is the index
    of the first line of [lines]. *)
Fixpoint lineMatches (caseSensitive : bool) (searchPattern : string)
    (i : nat) (lines : list string) : list (nat * string) :=
  match lines with
  | [] => []
  | line :: rest =>
      let lineToSearch := if caseSensitive then line else JS.toLowerCase line in
      if JS.includes lineToSearch searchPattern
      then (i + 1, takeChars 200 line)%nat
             :: lineMatches caseSensitive searchPattern (S i) rest
      else lineMatches caseSensitive searchPattern (S i) rest
  end.

(** What [search_notes] records for a note with the text [fileText]:
    nothing when the text does not include the query, else at most five
    line matches. *)
Definition noteMatches (caseSensitive : bool) (queryText fileText : string)
  : option (list (nat * string)) :=
  let searchPattern := if caseSensitive then queryText else JS.toLowerCase queryText in
  let searchContent := if caseSensitive then fileText else JS.toLowerCase fileText in
  if JS.includes searchContent searchPattern then
    Some (List.firstn 5
            (lineMatches caseSensitive searchPattern 0 (JS.split "010" fileText)))
  else None.

(** * Properties *)

(** ** The string primitives on examples *)

Example startsWith_ex : JS.startsWith "select 1" "select" = true.
Proof. reflexivity. Qed.

Example includes_ex : JS.includes "select * from t; drop table t" "drop" = true.
Proof. reflexivity. Qed.

Example trim_ex : JS.trim "  df -h  " = "df -h".
Proof. reflexivity. Qed.

Example toLowerCase_ex : JS.toLowerCase "SELECT * FROM t" = "select * from t".
Proof. reflexivity. Qed.

Example split_ex : JS.split " " "Bearer abc" = ["Bearer"; "abc"].
Proof. reflexivity. Qed.

Example split_empty_ex : JS.split "," "" = [""].
Proof. reflexivity. Qed.

Example numberToString_ex :
  (JS.numberToString 100, JS.numberToString 0, JS.numberToString (-5))
  = ("100", "0", "-5").
Proof. reflexivity. Qed.

Example resolve_ex1 wd : Path.resolve wd "/data/../etc/passwd" = "/etc/passwd".
Proof. reflexivity. Qed.

Example resolve_ex2 : Path.resolve "/home/pi" "notes/./a//b/../c/" = "/home/pi/notes/a/c".
Proof. reflexivity. Qed.

Example resolve_ex3 : Path.resolve "/home/pi" "../../../.." = "/".
Proof. reflexivity. Qed.

Example resolve_ex4 : Path.resolve "/home/pi" "" = "/home/pi".
Proof. reflexivity. Qed.

(** ** Facts about the string primitives *)

Lemma append_nil_l (s : string) : "" +:+ s = s.
Proof. reflexivity. Qed.

Lemma append_cons (c : ascii) (a s : string) :
  String c a +:+ s = String c (a +:+ s).
Proof. reflexivity. Qed.

Lemma append_assoc (a b c : string) : (a +:+ b) +:+ c = a +:+ (b +:+ c).
Proof.
  induction a as [|x a IH]; [reflexivity|].
  rewrite !append_cons, IH. reflexivity.
Qed.

Lemma startsWith_nil (s : string) : JS.startsWith s "" = true.
Proof. destruct s; reflexivity. Qed.

(** [startsWith] is the prefix relation. *)
Lemma startsWith_iff (s p : string) :
  JS.startsWith s p = true <-> exists r, s = p +:+ r.
Proof.
  revert s. induction p as [|c p IH]; intros s.
  - rewrite startsWith_nil. split; [intros _; exists s; reflexivity | reflexivity].
  - destruct s as [|d s]; simpl.
    + split; [discriminate | intros [r Hr]; rewrite append_cons in Hr; discriminate].
    + destruct (Ascii.eqb_spec d c) as [->|Hne].
      * rewrite IH. split; intros [r Hr]; exists r.
        -- rewrite append_cons, Hr. reflexivity.
        -- rewrite append_cons in Hr. congruence.
      * split; [discriminate|].
        intros [r Hr]. rewrite append_cons in Hr. congruence.
Qed.

Lemma startsWith_app (p r : string) : JS.startsWith (p +:+ r) p = true.
Proof. apply startsWith_iff. exists r. reflexivity. Qed.

Lemma includes_nil (w : string) : JS.includes "" w = JS.startsWith "" w.
Proof. unfold JS.includes. apply orb_false_r. Qed.

Lemma includes_cons (d : ascii) (s w : string) :
  JS.includes (String d s) w = JS.startsWith (String d s) w || JS.includes s w.
Proof. reflexivity. Qed.

(** [includes] is the substring relation. *)
Lemma includes_iff (s w : string) :
  JS.includes s w = true <-> exists a c, s = a +:+ w +:+ c.
Proof.
  induction s as [|d s IH].
  - rewrite includes_nil, startsWith_iff. split.
    + intros [r Hr]. exists "", r. exact Hr.
    + intros [a [c H]]. destruct a as [|x a]; [|rewrite append_cons in H; discriminate].
      exists c. exact H.
  - rewrite includes_cons, orb_true_iff, IH, startsWith_iff. split.
    + intros [[r Hr]|[a [c H]]].
      * exists "", r. exact Hr.
      * exists (String d a), c. rewrite append_cons, H. reflexivity.
    + intros [a [c H]]. destruct a as [|x a].
      * left. exists c. exact H.
      * right. rewrite append_cons in H. injection H as _ H. exists a, c. exact H.
Qed.

(** A string includes what is appended to it. *)
Lemma includes_app_r (a w : string) : JS.includes (a +:+ w) w = true.
Proof.
  apply includes_iff. exists a, "".
  f_equal. induction w as [|c w IH]; [reflexivity|].
  rewrite append_cons, <- IH. reflexivity.
Qed.

(** Without the separator in it, a string is one piece. *)
Lemma split_no_sep (sep : ascii) (s : string) :
  JS.includes s (String sep "") = false -> JS.split sep s = [s].
Proof.
  induction s as [|c s IH]; [reflexivity|].
  rewrite includes_cons. simpl. destruct (Ascii.eqb c sep).
  - rewrite startsWith_nil. discriminate.
  - simpl. intros H. rewrite (IH H). reflexivity.
Qed.

Lemma split_app_sep (sep : ascii) (a b : string) :
  JS.includes a (String sep "") = false ->
  JS.split sep (a +:+ String sep b) = a :: JS.split sep b.
Proof.
  induction a as [|c a IH].
  - intros _. rewrite append_nil_l. simpl. rewrite Ascii.eqb_refl. reflexivity.
  - rewrite includes_cons, append_cons. simpl. destruct (Ascii.eqb c sep).
    + rewrite startsWith_nil. discriminate.
    + simpl. intros H. rewrite (IH H). reflexivity.
Qed.

(** How [split] takes a string apart at the first separator. *)
Lemma split_first (sep : ascii) (s a : string) (rest : list string) :
  JS.split sep s = a :: rest ->
  JS.includes a (String sep "") = false
  /\ ((rest = [] /\ s = a)
      \/ exists s', s = a +:+ String sep s' /\ rest = JS.split sep s').
Proof.
  revert a rest. induction s as [|c s IH]; intros a rest.
  - simpl. intros [= <- <-]. split; [reflexivity | left; split; reflexivity].
  - simpl. destruct (Ascii.eqb_spec c sep) as [->|Hne].
    + intros [= <- <-]. split; [reflexivity|]. right. exists s.
      split; reflexivity.
    + destruct (JS.split sep s) as [|h t] eqn:Hs.
      * intros [= <- <-]. split.
        -- rewrite includes_cons. simpl.
           destruct (Ascii.eqb_spec c sep); [contradiction | reflexivity].
        -- left. split; [reflexivity|].
           destruct s; simpl in Hs; [discriminate|].
           destruct (Ascii.eqb _ _); [discriminate|].
           destruct (JS.split sep s); discriminate.
      * intros [= <- <-]. destruct (IH h t eq_refl) as [Hinc Hcases]. split.
        -- rewrite includes_cons. simpl.
           destruct (Ascii.eqb_spec c sep); [contradiction | exact Hinc].
        -- destruct Hcases as [[-> ->]|[s' [-> ->]]].
           ++ left. split; reflexivity.
           ++ right. exists s'. rewrite append_cons. split; reflexivity.
Qed.

(** ** The tool registry ([callTool]) *)

Example callTool_demo_ok :
  callTool demoRegistry "query_sqlite" {| query := Some "select 1"; limit := None |}
  = Returns (textResult "rowCount 2 rows {id: 1},{id: 2}").
Proof. vm_compute. reflexivity. Qed.

Example callTool_demo_throws :
  handler (query_sqlite_tool demoStringify (Some demoDb))
          {| query := None; limit := None |}
  = Throws (ErrorInstance "Cannot read properties of undefined (reading 'trim')").
Proof. reflexivity. Qed.

Lemma errorResult_flagged (t : string) : errorFlagged (errorResult t).
Proof. reflexivity. Qed.

Lemma errorResult_mentions (prefix s : string) :
  mentions (errorResult (prefix +:+ s)) s.
Proof. constructor. simpl. apply includes_app_r. Qed.


(** C7. For a name that is not in the registry, and any argument bag,
    [callTool] returns (it does not throw) the result
    [Unknown tool: <name>]: it is error-flagged and its text contains the
    requested name. *)
Theorem callTool_unknown_name {Args : Type}
    (reg : gmap string (ToolDefinition Args)) (nm : string) (args : Args) :
  reg !! nm = None ->
  callTool reg nm args = Returns (errorResult ("Unknown tool: " +:+ nm))
  /\ errorFlagged (errorResult ("Unknown tool: " +:+ nm))
  /\ mentions (errorResult ("Unknown tool: " +:+ nm)) nm.
Proof.
  intros Hnone. split; [|split].
  - unfold callTool, getToolHandler. rewrite Hnone. reflexivity.
  - apply errorResult_flagged.
  - apply errorResult_mentions.
Qed.

Lemma callTool_unknown_name_witness :
  demoRegistry !! "read_mail" = None
  /\ callTool demoRegistry "read_mail" {| query := None; limit := Some 3 |}
     = Returns (errorResult "Unknown tool: read_mail").
Proof.
  assert (H : demoRegistry !! "read_mail" = None) by (vm_compute; reflexivity).
  split; [exact H|].
  exact (proj1 (callTool_unknown_name demoRegistry "read_mail"
                  {| query := None; limit := Some 3 |} H)).
Defined.



(** ** The statement filter and the row cap ([query_sqlite]) *)

Section DatabaseFacts.

Context {Row : Type}.
Variable stringifyRows : nat -> list Row -> string.
Variable db : @Database Row.

Local Abbreviation run := (runQuery stringifyRows db).

Lemma firstForbidden_None (normalized : string) (words : list string) :
  firstForbidden normalized words = None
  <-> forall w, In w words -> JS.includes normalized w = false.
Proof.
  induction words as [|word rest IH]; simpl.
  - split; [intros _ w [] | reflexivity].
  - destruct (JS.includes normalized word) eqn:Hw.
    + split; [discriminate|]. intros H. specialize (H word (or_introl eq_refl)).
      congruence.
    + rewrite IH. split.
      * intros H w [<-|Hin]; [exact Hw | exact (H w Hin)].
      * intros H w Hin. apply H. right. exact Hin.
Qed.

Lemma firstForbidden_Some (normalized word : string) (words : list string) :
  firstForbidden normalized words = Some word ->
  In word words /\ JS.includes normalized word = true.
Proof.
  induction words as [|w rest IH]; simpl; [discriminate|].
  destruct (JS.includes normalized w) eqn:Hw.
  - intros [= <-]. split; [left; reflexivity | exact Hw].
  - intros H. destruct (IH H) as [Hin Hinc]. split; [right; exact Hin | exact Hinc].
Qed.

(** The three ways the handler goes on a query text. *)
Lemma run_not_select (q : string) (l : option Z) :
  JS.startsWith (JS.toLowerCase (JS.trim q)) "select" = false ->
  run q l = ([], Returns (errorResult
    "Only SELECT queries are allowed. Use list_tables to see available tables.")).
Proof. intros H. unfold runQuery, query_sqlite. simpl. rewrite H. reflexivity. Qed.

Lemma run_forbidden (q : string) (l : option Z) (word : string) :
  JS.startsWith (JS.toLowerCase (JS.trim q)) "select" = true ->
  firstForbidden (JS.toLowerCase (JS.trim q)) forbidden = Some word ->
  run q l = ([], Returns (errorResult ("Query contains forbidden keyword: " +:+ word))).
Proof.
  intros H1 H2. unfold runQuery, query_sqlite. cbn [query limit].
  rewrite H1. cbn [negb]. rewrite H2. reflexivity.
Qed.

Lemma run_executes (q : string) (l : option Z) :
  JS.startsWith (JS.toLowerCase (JS.trim q)) "select" = true ->
  firstForbidden (JS.toLowerCase (JS.trim q)) forbidden = None ->
  fst (run q l) =
  [ PrepareAll
      (if negb (JS.includes (JS.toLowerCase (JS.trim q)) "limit")
       then JS.trim q +:+ " LIMIT " +:+
            JS.numberToString
              (Z.min (match l with
                      | Some z => if z =? 0 then 100 else z
                      | None => 100
                      end) 1000)
       else JS.trim q);
    Close ].
Proof.
  intros H1 H2. unfold runQuery, query_sqlite. cbn [query limit].
  rewrite H1. cbn [negb]. rewrite H2.
  match goal with |- context [db ?sql] => destruct (db sql) end; reflexivity.
Qed.

(** Whatever [openDatabase()] returned and whatever the arguments: a
    statement is executed only for a text that passes both tests. *)
Lemma query_sqlite_executes_only_filtered (odb : option (@Database Row))
    (args : QueryArgs) :
  executed (fst (query_sqlite stringifyRows odb args)) <> [] ->
  exists q, query args = Some q
    /\ JS.startsWith (JS.toLowerCase (JS.trim q)) "select" = true
    /\ firstForbidden (JS.toLowerCase (JS.trim q)) forbidden = None.
Proof.
  unfold query_sqlite. destruct odb as [d|]; [|intros H; contradiction H; reflexivity].
  destruct (query args) as [q|]; [|intros H; contradiction H; reflexivity].
  destruct (JS.startsWith (JS.toLowerCase (JS.trim q)) "select") eqn:Hsel;
    [|intros H; contradiction H; reflexivity].
  cbn [negb].
  destruct (firstForbidden (JS.toLowerCase (JS.trim q)) forbidden) eqn:Hforb;
    [intros H; contradiction H; reflexivity|].
  intros _. exists q. repeat split; first [reflexivity | assumption].
Qed.

End DatabaseFacts.

(** C3. With the database open, the handler hands a statement to the
    database exactly when the trimmed, lower-cased text starts with
    [select] and contains none of the words insert, update, delete, drop,
    alter, create, attach, detach anywhere; otherwise nothing is executed
    and the result is error-flagged.  Whatever the handle and the
    arguments, nothing is executed for a text that fails either test.
    [SELECT * FROM t] is executed; [select * from t; DROP TABLE t] and
    [update t set x=1] are denied. *)
Theorem query_sqlite_statement_filter {Row : Type}
    (stringifyRows : nat -> list Row -> string) (db : @Database Row)
    (q : string) (l : option Z) :
  let normalized := JS.toLowerCase (JS.trim q) in
  (executed (fst (runQuery stringifyRows db q l)) <> []
   <-> JS.startsWith normalized "select" = true
       /\ forall word, In word forbidden -> JS.includes normalized word = false)
  /\ (executed (fst (runQuery stringifyRows db q l)) = [] ->
      fst (runQuery stringifyRows db q l) = []
      /\ exists r, snd (runQuery stringifyRows db q l) = Returns r /\ errorFlagged r)
  /\ (forall odb args,
        executed (fst (query_sqlite stringifyRows odb args)) <> [] ->
        exists q', query args = Some q'
          /\ JS.startsWith (JS.toLowerCase (JS.trim q')) "select" = true
          /\ forall word, In word forbidden ->
               JS.includes (JS.toLowerCase (JS.trim q')) word = false)
  /\ executed (fst (runQuery stringifyRows db "SELECT * FROM t" l)) <> []
  /\ runQuery stringifyRows db "select * from t; DROP TABLE t" l
     = ([], Returns (errorResult "Query contains forbidden keyword: drop"))
  /\ runQuery stringifyRows db "update t set x=1" l
     = ([], Returns (errorResult
         "Only SELECT queries are allowed. Use list_tables to see available tables.")).
Proof.
  intros normalized.
  assert (Hcases :
    (JS.startsWith normalized "select" = true
     /\ firstForbidden normalized forbidden = None
     /\ executed (fst (runQuery stringifyRows db q l)) <> [])
    \/ ((JS.startsWith normalized "select" = false
         \/ exists word, firstForbidden normalized forbidden = Some word)
        /\ fst (runQuery stringifyRows db q l) = []
        /\ exists r, snd (runQuery stringifyRows db q l) = Returns r /\ errorFlagged r)).
  { destruct (JS.startsWith normalized "select") eqn:Hsel.
    - destruct (firstForbidden normalized forbidden) as [word|] eqn:Hforb.
      + right. split; [right; eauto|].
        rewrite (run_forbidden stringifyRows db q l word Hsel Hforb).
        split; [reflexivity|]. eexists. split; reflexivity.
      + left. split; [reflexivity|]. split; [reflexivity|].
        rewrite (run_executes stringifyRows db q l Hsel Hforb). discriminate.
    - right. split; [left; reflexivity|].
      rewrite (run_not_select stringifyRows db q l Hsel).
      split; [reflexivity|]. eexists. split; reflexivity. }
  split; [|split; [|split; [|split; [|split]]]].
  - destruct Hcases as [(Hsel & Hforb & Hex)|([Hsel|[word Hforb]] & Hfst & _)].
    + split; [intros _|intros _; exact Hex].
      split; [exact Hsel|]. apply firstForbidden_None. exact Hforb.
    + rewrite Hfst. split; [intros H; contradiction H; reflexivity|].
      intros [H _]. congruence.
    + rewrite Hfst. split; [intros H; contradiction H; reflexivity|].
      intros [_ H]. apply firstForbidden_None in H. congruence.
  - intros Hnone. destruct Hcases as [(_ & _ & Hex)|(_ & Hfst & Hres)].
    + contradiction.
    + split; assumption.
  - intros odb args Hex.
    destruct (query_sqlite_executes_only_filtered stringifyRows odb args Hex)
      as (q' & Hq & Hsel & Hforb).
    exists q'. split; [exact Hq|]. split; [exact Hsel|].
    apply firstForbidden_None. exact Hforb.
  - rewrite run_executes by reflexivity. discriminate.
  - apply run_forbidden; reflexivity.
  - apply run_not_select. reflexivity.
Qed.

Lemma query_sqlite_statement_filter_witness :
  executed (fst (runQuery demoStringify demoDb "DELETE FROM t" None)) = []
  /\ fst (runQuery demoStringify demoDb "DELETE FROM t" None) = []
  /\ exists r, snd (runQuery demoStringify demoDb "DELETE FROM t" None) = Returns r
               /\ errorFlagged r.
Proof.
  assert (H : executed (fst (runQuery demoStringify demoDb "DELETE FROM t" None)) = [])
    by reflexivity.
  split; [exact H|].
  exact (proj1 (proj2 (query_sqlite_statement_filter demoStringify demoDb
                         "DELETE FROM t" None)) H).
Defined.



Example row_cap_default :
  executed (fst (runQuery demoStringify demoDb "select id from t" None))
  = ["select id from t LIMIT 100"].
Proof. reflexivity. Qed.

Example row_cap_zero_is_default :
  executed (fst (runQuery demoStringify demoDb "select id from t" (Some 0)))
  = ["select id from t LIMIT 100"].
Proof. reflexivity. Qed.

Example row_cap_column_named_limits :
  executed (fst (runQuery demoStringify demoDb "select limits from t" (Some 5)))
  = ["select limits from t"].
Proof. reflexivity. Qed.

(** ** The command whitelist ([isCommandAllowed]) *)

Lemma has_iff (set : list string) (x : string) : has set x = true <-> In x set.
Proof.
  unfold has. rewrite existsb_exists. split.
  - intros [y [Hin Heq]]. apply String.eqb_eq in Heq. subst. exact Hin.
  - intros Hin. exists x. split; [exact Hin | apply String.eqb_refl].
Qed.

Example isCommandAllowed_source_list :
  (isCommandAllowed "df -h", isCommandAllowed "rm -rf /", isCommandAllowed "dfx",
   isCommandAllowed "cat /proc/cpuinfo", isCommandAllowed "cat /etc/shadow")
  = (true, false, false, true, false).
Proof. reflexivity. Qed.

(** C4, as the code has it.  A command is allowed exactly when, after
    trimming surrounding white space, it equals an entry of the whitelist or
    starts with an entry followed by a space.  With the entries [df] and
    [uptime]: [df -h] is allowed, [rm -rf /] and [dfx] are denied. *)
Theorem isCommandAllowed_trimmed_boundary (allowedCommands : list string)
    (cmd : string) :
  (isCommandAllowedIn allowedCommands cmd = true
   <-> In (JS.trim cmd) allowedCommands
       \/ exists allowed, In allowed allowedCommands
            /\ JS.startsWith (JS.trim cmd) (allowed +:+ " ") = true)
  /\ isCommandAllowedIn ["df"; "uptime"] "df -h" = true
  /\ isCommandAllowedIn ["df"; "uptime"] "rm -rf /" = false
  /\ isCommandAllowedIn ["df"; "uptime"] "dfx" = false.
Proof.
  split; [|repeat split].
  unfold isCommandAllowedIn. rewrite orb_true_iff, has_iff, existsb_exists.
  reflexivity.
Qed.

(** C4 as stated fails: [ df], with a space in front, is allowed, although
    it neither equals an entry nor starts with an entry and a space. *)
Lemma isCommandAllowed_untrimmed_counterexample :
  isCommandAllowedIn ["df"; "uptime"] " df" = true
  /\ isCommandAllowed " df" = true
  /\ ~ (In " df" ["df"; "uptime"]
        \/ exists allowed, In allowed ["df"; "uptime"]
             /\ JS.startsWith " df" (allowed +:+ " ") = true).
Proof.
  split; [reflexivity|]. split; [reflexivity|].
  intros [Hin|[allowed [Hin Hpre]]].
  - simpl in Hin. destruct Hin as [H|[H|[]]]; discriminate H.
  - simpl in Hin. destruct Hin as [<-|[<-|[]]]; discriminate Hpre.
Qed.

(** ** The path allowlist ([isPathAllowed]) *)

Example getAllowedPaths_ex :
  getAllowedPaths (allowing " /data , /srv/notes ,, " "/") = ["/data"; "/srv/notes"].
Proof. reflexivity. Qed.

Example getAllowedPaths_unset :
  getAllowedPaths {| MCP_TOKEN := None; ALLOWED_PATHS := None; cwd := "/" |} = [].
Proof. reflexivity. Qed.

(** [isPathAllowed] in terms of the resolved paths. *)
Lemma isPathAllowed_iff (env : ProcessEnv) (targetPath : string) :
  isPathAllowed env targetPath = true
  <-> exists allowedPath, In allowedPath (getAllowedPaths env)
        /\ JS.startsWith (Path.resolve (cwd env) targetPath)
                         (Path.resolve (cwd env) allowedPath) = true.
Proof.
  unfold isPathAllowed. destruct (getAllowedPaths env) as [|a rest] eqn:Hall.
  - simpl. split; [discriminate | intros [p [[] _]]].
  - cbn [length Nat.eqb]. apply existsb_exists.
Qed.




(** C9. The comparison is a plain prefix test on characters: if an entry
    [p] is configured, every candidate whose resolved form starts with the
    resolved form of [p] is allowed.  With the entry [/data] the sibling
    [/database/secret] is allowed, and it does not lie in the directory
    [/data]. *)
Theorem isPathAllowed_no_separator_boundary (env : ProcessEnv)
    (p targetPath : string) :
  In p (getAllowedPaths env) ->
  JS.startsWith (Path.resolve (cwd env) targetPath)
                (Path.resolve (cwd env) p) = true ->
  isPathAllowed env targetPath = true
  /\ (forall wd,
        isPathAllowed (allowing "/data" wd) "/database/secret" = true
        /\ insideDirectory (Path.resolve wd "/data")
                           (Path.resolve wd "/database/secret") = false).
Proof.
  intros Hin Hpre. split.
  - apply isPathAllowed_iff. exists p. split; assumption.
  - intros wd. split; reflexivity.
Qed.

Lemma isPathAllowed_no_separator_boundary_witness :
  isPathAllowed (allowing "/srv/notes, /data" "/home/pi") "/data-backup/../database/secret"
  = true.
Proof.
  refine (proj1 (isPathAllowed_no_separator_boundary
                   (allowing "/srv/notes, /data" "/home/pi")
                   "/data" "/data-backup/../database/secret" _ _)).
  - simpl. right. left. reflexivity.
  - reflexivity.
Defined.

(** ** The authentication gate ([authMiddleware]) *)

Example authMiddleware_ex_ok :
  authMiddleware demoEnv (bearer "s3cret" POST None) = AuthNext.
Proof. reflexivity. Qed.

Example authMiddleware_ex_basic :
  authMiddleware demoEnv
    {| method := GET; authorization := Some "Basic s3cret";
       mcp_session_id := None; body := "" |}
  = AuthReject (unauthorized "Invalid token").
Proof. reflexivity. Qed.

Example authMiddleware_ex_unconfigured :
  authMiddleware {| MCP_TOKEN := None; ALLOWED_PATHS := None; cwd := "/" |}
                 (bearer "s3cret" POST None)
  = AuthReject (status_json 500 [("error", "Server misconfigured")]).
Proof. reflexivity. Qed.

(** The status of a rejection depends on the configuration only. *)
Lemma authMiddleware_reject_status (env : ProcessEnv) (req : Request) (r : Response) :
  authMiddleware env req = AuthReject r ->
  status r = if JS.given (MCP_TOKEN env) then 401 else 500.
Proof.
  unfold authMiddleware, JS.given.
  destruct (JS.present (MCP_TOKEN env)) as [expected|].
  - destruct (JS.present (authorization req)) as [h|].
    + destruct (_ || _); [|discriminate]. intros [= <-]. reflexivity.
    + intros [= <-]. reflexivity.
  - intros [= <-]. reflexivity.
Qed.

(** When the gate lets a request through. *)
Lemma authMiddleware_next_iff (env : ProcessEnv) (req : Request) :
  authMiddleware env req = AuthNext
  <-> exists expected h,
        JS.present (MCP_TOKEN env) = Some expected
        /\ JS.present (authorization req) = Some h
        /\ nth_error (JS.split " " h) 0 = Some "Bearer"
        /\ nth_error (JS.split " " h) 1 = Some expected.
Proof.
  unfold authMiddleware.
  destruct (JS.present (MCP_TOKEN env)) as [expected|];
    [|split; [discriminate | intros (? & ? & [=] & _)]].
  destruct (JS.present (authorization req)) as [h|];
    [|split; [discriminate | intros (? & ? & _ & [=] & _)]].
  split.
  - intros H. exists expected, h.
    destruct (bool_decide_reflect (nth_error (JS.split " " h) 0 = Some "Bearer"));
      [|discriminate H].
    destruct (bool_decide_reflect (nth_error (JS.split " " h) 1 = Some expected));
      [|discriminate H].
    repeat split; assumption.
  - intros (e & h' & [= <-] & [= <-] & H0 & H1).
    rewrite !bool_decide_eq_true_2 by assumption. reflexivity.
Qed.

Lemma split_bearer (token : string) :
  JS.includes token " " = false ->
  JS.split " " ("Bearer " +:+ token) = ["Bearer"; token].
Proof.
  intros Hns.
  change ("Bearer " +:+ token) with ("Bearer" +:+ String " " token).
  rewrite split_app_sep by reflexivity.
  rewrite (split_no_sep _ _ Hns). reflexivity.
Qed.

(** A request that has a header is let through or told [Invalid token]. *)
Lemma authMiddleware_header (env : ProcessEnv) (expected h : string) (req : Request) :
  JS.present (MCP_TOKEN env) = Some expected ->
  JS.present (authorization req) = Some h ->
  authMiddleware env req = AuthNext
  \/ authMiddleware env req = AuthReject (unauthorized "Invalid token").
Proof.
  intros Htok Hh. unfold authMiddleware. rewrite Htok, Hh.
  destruct (_ || _); [right | left]; reflexivity.
Qed.

Lemma present_Some (o : option string) (h : string) :
  JS.present o = Some h -> o = Some h.
Proof.
  destruct o as [x|]; [|discriminate]. simpl.
  destruct (JS.truthy x); [congruence | discriminate].
Qed.

Lemma append_cancel_l (p a b : string) : p +:+ a = p +:+ b -> a = b.
Proof.
  induction p as [|c p IH]; [rewrite !append_nil_l; trivial|].
  rewrite !append_cons. intros [= H]. exact (IH H).
Qed.

Lemma present_bearer (t : string) :
  JS.present (Some ("Bearer " +:+ t)) = Some ("Bearer " +:+ t).
Proof. reflexivity. Qed.

(** The header of a request that is let through: [Bearer], a space, and
    then the configured token, alone or followed by a space. *)
Lemma authMiddleware_next_header (env : ProcessEnv) (expected : string)
    (req : Request) :
  JS.present (MCP_TOKEN env) = Some expected ->
  authMiddleware env req = AuthNext ->
  exists t, authorization req = Some ("Bearer " +:+ t)
            /\ (t = expected \/ JS.startsWith t (expected +:+ " ") = true).
Proof.
  intros Htok Hnext. apply authMiddleware_next_iff in Hnext.
  destruct Hnext as (e & h & He & Hh & H0 & H1).
  rewrite Htok in He. injection He as <-. apply present_Some in Hh.
  destruct (JS.split " " h) as [|p0 [|p1 tl]] eqn:Hsplit; try discriminate.
  simpl in H0, H1. injection H0 as ->. injection H1 as ->.
  destruct (split_first _ _ _ _ Hsplit) as [_ [[Hnil _]|[t [-> Ht]]]];
    [discriminate|].
  exists t. split; [exact Hh|].
  symmetry in Ht. destruct (split_first _ _ _ _ Ht) as [_ [[_ ->]|[r [-> _]]]].
  - left. reflexivity.
  - right. apply startsWith_iff. exists r. rewrite append_assoc. reflexivity.
Qed.

(** C1, as the code has it.  With the token configured:
    - a request without the header is rejected with 401 and the body
      [Authorization required];
    - a request with the header [Bearer <t>] where [t] is a wrong token
      (not the configured one, and not the configured one followed by a
      space) is rejected with 401 and the body [Invalid token];
    - so is a request whose header does not start with [Bearer] and a
      space, and every other request with a header that is not let through;
    - every rejection has status 401, so the two rejections have the same
      status, but their bodies differ;
    - a request whose header is [Bearer <token>] with the configured token,
      when that token has no space in it, goes on to the handler. *)
Theorem authMiddleware_gate (env : ProcessEnv) (expected : string) (req : Request) :
  JS.present (MCP_TOKEN env) = Some expected ->
  (JS.given (authorization req) = false ->
   authMiddleware env req = AuthReject (unauthorized "Authorization required"))
  /\ (forall t,
        authorization req = Some ("Bearer " +:+ t) ->
        t <> expected ->
        JS.startsWith t (expected +:+ " ") = false ->
        authMiddleware env req = AuthReject (unauthorized "Invalid token"))
  /\ (forall h,
        JS.present (authorization req) = Some h ->
        JS.startsWith h "Bearer " = false ->
        authMiddleware env req = AuthReject (unauthorized "Invalid token"))
  /\ (JS.given (authorization req) = true ->
      authMiddleware env req <> AuthNext ->
      authMiddleware env req = AuthReject (unauthorized "Invalid token"))
  /\ (forall r, authMiddleware env req = AuthReject r -> status r = 401)
  /\ (forall req' r r',
        authMiddleware env req = AuthReject r ->
        authMiddleware env req' = AuthReject r' ->
        status r = status r')
  /\ unauthorized "Authorization required" <> unauthorized "Invalid token"
  /\ (JS.includes expected " " = false ->
      authorization req = Some ("Bearer " +:+ expected) ->
      authMiddleware env req = AuthNext).
Proof.
  intros Htok.
  assert (Hgiven : JS.given (MCP_TOKEN env) = true)
    by (unfold JS.given; rewrite Htok; reflexivity).
  repeat apply conj.
  - unfold authMiddleware, JS.given. rewrite Htok.
    destruct (JS.present (authorization req)); [discriminate | reflexivity].
  - intros t Hauth Hne Hpre.
    assert (Hh : JS.present (authorization req) = Some ("Bearer " +:+ t))
      by (rewrite Hauth; apply present_bearer).
    destruct (authMiddleware_header env expected _ req Htok Hh) as [Hnext|Hrej];
      [|exact Hrej].
    destruct (authMiddleware_next_header env expected req Htok Hnext)
      as (t' & Hauth' & Hshape).
    rewrite Hauth in Hauth'. injection Hauth' as Heq.
    apply append_cancel_l in Heq. subst t'.
    destruct Hshape as [->|Hpre']; [contradiction | congruence].
  - intros h Hh Hscheme.
    destruct (authMiddleware_header env expected h req Htok Hh) as [Hnext|Hrej];
      [|exact Hrej].
    destruct (authMiddleware_next_header env expected req Htok Hnext)
      as (t & Hauth & _).
    rewrite Hauth, present_bearer in Hh. injection Hh as Heq. subst h.
    rewrite (startsWith_app "Bearer " t) in Hscheme. discriminate.
  - unfold JS.given. destruct (JS.present (authorization req)) as [h|] eqn:Hh;
      [|discriminate].
    intros _ Hnot.
    destruct (authMiddleware_header env expected h req Htok Hh) as [Hnext|Hrej];
      [contradiction | exact Hrej].
  - intros r H. rewrite (authMiddleware_reject_status _ _ _ H), Hgiven. reflexivity.
  - intros req' r r' H H'.
    rewrite (authMiddleware_reject_status _ _ _ H),
            (authMiddleware_reject_status _ _ _ H'). reflexivity.
  - discriminate.
  - intros Hns Hauth. apply authMiddleware_next_iff.
    exists expected, ("Bearer " +:+ expected). rewrite Hauth.
    split; [exact Htok|]. split; [reflexivity|].
    rewrite (split_bearer _ Hns). split; reflexivity.
Qed.

Lemma authMiddleware_gate_witness :
  authMiddleware demoEnv (bearer "s3cret" POST None) = AuthNext
  /\ authMiddleware demoEnv (anonymous POST None)
     = AuthReject (unauthorized "Authorization required")
  /\ authMiddleware demoEnv (bearer "guess" POST None)
     = AuthReject (unauthorized "Invalid token")
  /\ authMiddleware demoEnv (bearer "s3" POST None)
     = AuthReject (unauthorized "Invalid token")
  /\ authMiddleware demoEnv
       {| method := POST; authorization := Some "Basic s3cret";
          mcp_session_id := None; body := "" |}
     = AuthReject (unauthorized "Invalid token").
Proof.
  repeat apply conj.
  - refine (proj2 (proj2 (proj2 (proj2 (proj2 (proj2 (proj2
      (authMiddleware_gate demoEnv "s3cret" (bearer "s3cret" POST None) _))))))) _ _);
      reflexivity.
  - refine (proj1 (authMiddleware_gate demoEnv "s3cret" (anonymous POST None) _) _);
      reflexivity.
  - refine (proj1 (proj2
      (authMiddleware_gate demoEnv "s3cret" (bearer "guess" POST None) _))
      "guess" _ _ _);
      [reflexivity | reflexivity | discriminate | reflexivity].
  - refine (proj1 (proj2
      (authMiddleware_gate demoEnv "s3cret" (bearer "s3" POST None) _))
      "s3" _ _ _);
      [reflexivity | reflexivity | discriminate | reflexivity].
  - refine (proj1 (proj2 (proj2
      (authMiddleware_gate demoEnv "s3cret"
         {| method := POST; authorization := Some "Basic s3cret";
            mcp_session_id := None; body := "" |} _)))
      "Basic s3cret" _ _);
      reflexivity.
Defined.

(** C1 as stated fails: the rejection of a request without the header and
    the rejection of a request with a wrong token are not the same
    response; the caller reads which check failed in the body. *)
Lemma authMiddleware_rejections_differ :
  authMiddleware demoEnv (anonymous POST None)
  = AuthReject (unauthorized "Authorization required")
  /\ authMiddleware demoEnv (bearer "guess" POST None)
     = AuthReject (unauthorized "Invalid token")
  /\ authMiddleware demoEnv (anonymous POST None)
     <> authMiddleware demoEnv (bearer "guess" POST None).
Proof. split; [reflexivity|]. split; [reflexivity|]. discriminate. Qed.

(** A configured token with a space in it is never accepted. *)
Example authMiddleware_token_with_space :
  authMiddleware {| MCP_TOKEN := Some "two words"; ALLOWED_PATHS := None; cwd := "/" |}
                 (bearer "two words" POST None)
  = AuthReject (unauthorized "Invalid token").
Proof. reflexivity. Qed.

(** ** The session routes ([setupMCPRoutes]) *)

Example mcp_ex_new_session :
  mcp demoSdk demoEnv demoState (bearer "s3cret" POST None)
  = ({| transports := {[ "s1" := {| sessionId := Some "s1" |};
                         "#" := {| sessionId := Some "#" |} ]};
        world := 1%nat |},
     {| status := 200; payload := Raw "initialized" |}).
Proof. vm_compute. reflexivity. Qed.

Example mcp_ex_probe :
  snd (mcp demoSdk demoEnv demoState (bearer "s3cret" GET None))
  = json [("name", "pi-mcp-server"); ("version", "1.0.0");
          ("transport", "streamable-http")].
Proof. reflexivity. Qed.

Example mcp_ex_unauthenticated :
  mcp demoSdk demoEnv demoState (anonymous DELETE (Some "s1"))
  = (demoState, unauthorized "Authorization required").
Proof. reflexivity. Qed.

Section ServerFacts.

Context {W : Type}.
Variable handleRequest : W -> Transport -> Request -> W * SdkEffect.
Variable env : ProcessEnv.

Local Abbreviation mcp' := (mcp handleRequest env).
Local Abbreviation mcp_run' := (mcp_run handleRequest env).

Lemma given_present (o : option string) (s : string) :
  JS.present o = Some s -> JS.given o = true.
Proof. unfold JS.given. intros ->. reflexivity. Qed.

Lemma known_false (st : State W) (o : option string) :
  lookupSession st o = None -> known st o = false.
Proof.
  unfold known. intros ->. apply bool_decide_eq_false_2. intros [x Hx]. discriminate.
Qed.

(** The handler of [app.all] answers every request itself. *)
Lemma mcpHandler_sends (st : State W) (req : Request) :
  exists st' res, mcpHandler handleRequest st req = (st', Sent res).
Proof.
  unfold mcpHandler.
  destruct (lookupSession st (mcp_session_id req)) as [t|].
  - destruct (serve handleRequest st t req) as [st' res]. eauto.
  - destruct (_ && _).
    + destruct (serve handleRequest st _ req) as [st' res]. eauto.
    + destruct (_ && _); eauto.
Qed.

(** So the route registered with [app.delete] after it is never run: one
    request is [authMiddleware] and then [mcpHandler]. *)
Lemma mcp_is_first_route (st : State W) (req : Request) :
  mcp' st req =
  match authMiddleware env req with
  | AuthReject res => (st, res)
  | AuthNext =>
      match mcpHandler handleRequest st req with
      | (st', Sent res) => (st', res)
      | (st', PassedOn) => (st', {| status := 404; payload := Raw "Not Found" |})
      end
  end.
Proof.
  unfold mcp, routes, express_dispatch. cbn [accepts run]. unfold guarded.
  destruct (authMiddleware env req); [reflexivity|].
  destruct (mcpHandler_sends st req) as (st' & res & ->). reflexivity.
Qed.

(** A request that carries an unknown session id. *)
Lemma mcpHandler_unknown (st : State W) (req : Request) (sid : string) :
  JS.present (mcp_session_id req) = Some sid ->
  transports st !! sid = None ->
  mcpHandler handleRequest st req = (st, Sent invalidSession).
Proof.
  intros Hsid Hnone. unfold mcpHandler.
  assert (Hlook : lookupSession st (mcp_session_id req) = None)
    by (unfold lookupSession; rewrite Hsid; exact Hnone).
  rewrite Hlook, (known_false _ _ Hlook), (given_present _ _ Hsid).
  rewrite andb_false_r. reflexivity.
Qed.

Lemma mcp_unknown (st : State W) (req : Request) (sid : string) :
  JS.present (mcp_session_id req) = Some sid ->
  transports st !! sid = None ->
  mcp' st req =
  (st, match authMiddleware env req with
       | AuthReject res => res
       | AuthNext => invalidSession
       end).
Proof.
  intros Hsid Hnone. rewrite mcp_is_first_route.
  destruct (authMiddleware env req); [reflexivity|].
  rewrite (mcpHandler_unknown st req sid Hsid Hnone). reflexivity.
Qed.

(** A request for a live session goes to its transport. *)
Lemma mcp_known (st : State W) (req : Request) (sid : string) (t : Transport) :
  authMiddleware env req = AuthNext ->
  JS.present (mcp_session_id req) = Some sid ->
  transports st !! sid = Some t ->
  mcp' st req = serve handleRequest st t req.
Proof.
  intros Hauth Hsid Ht. rewrite mcp_is_first_route, Hauth. unfold mcpHandler.
  assert (Hlook : lookupSession st (mcp_session_id req) = Some t)
    by (unfold lookupSession; rewrite Hsid; exact Ht).
  rewrite Hlook. destruct (serve handleRequest st t req). reflexivity.
Qed.

(** What one request can do to the entry of [sid]: nothing, unless the SDK
    hands out [sid] itself. *)
Lemma serve_keeps_unknown (st : State W) (t : Transport) (req : Request)
    (sid : string) :
  transports st !! sid = None ->
  action (snd (handleRequest (world st) t req)) <> Initialize sid ->
  transports (fst (serve handleRequest st t req)) !! sid = None.
Proof.
  intros Hnone Hfresh. unfold serve.
  destruct (handleRequest (world st) t req) as [w eff]. cbn [snd] in Hfresh.
  cbn [fst transports]. destruct (action eff) as [|newId|]; [exact Hnone| |].
  - unfold onsessioninitialized. rewrite lookup_insert_ne; [exact Hnone|].
    intros ->. apply Hfresh. reflexivity.
  - unfold onclose. destruct (JS.present (sessionId t)) as [s|]; [|exact Hnone].
    destruct (decide (s = sid)) as [->|Hne].
    + apply lookup_delete_eq.
    + rewrite lookup_delete_ne by exact Hne. exact Hnone.
Qed.

Lemma mcp_keeps_unknown (st : State W) (req : Request) (sid : string) :
  (forall w t r, action (snd (handleRequest w t r)) <> Initialize sid) ->
  transports st !! sid = None ->
  transports (fst (mcp' st req)) !! sid = None.
Proof.
  intros Hfresh Hnone. rewrite mcp_is_first_route.
  destruct (authMiddleware env req); [exact Hnone|].
  unfold mcpHandler.
  destruct (lookupSession st (mcp_session_id req)) as [t|].
  - pose proof (serve_keeps_unknown st t req sid Hnone (Hfresh _ _ _)) as H.
    destruct (serve handleRequest st t req). exact H.
  - destruct (_ && _).
    + pose proof (serve_keeps_unknown st {| sessionId := None |} req sid Hnone
                    (Hfresh _ _ _)) as H.
      destruct (serve handleRequest st _ req). exact H.
    + destruct (_ && _); exact Hnone.
Qed.

(** Once [sid] is unknown it stays unknown over any further requests, and
    each authenticated one that names it is answered [invalidSession]. *)
Lemma mcp_run_unknown (reqs : list Request) (st : State W) (sid : string) :
  (forall w t r, action (snd (handleRequest w t r)) <> Initialize sid) ->
  transports st !! sid = None ->
  transports (fst (mcp_run' st reqs)) !! sid = None
  /\ Forall2 (fun req res =>
                JS.present (mcp_session_id req) = Some sid ->
                authMiddleware env req = AuthNext ->
                res = invalidSession)
             reqs (snd (mcp_run' st reqs)).
Proof.
  intros Hfresh. revert st. induction reqs as [|req rest IH]; intros st Hnone.
  - split; [exact Hnone | constructor].
  - cbn [mcp_run].
    pose proof (mcp_keeps_unknown st req sid Hfresh Hnone) as Hstep.
    pose proof (mcp_unknown st req sid) as Hres.
    destruct (mcp' st req) as [st1 res]. cbn [fst] in Hstep.
    destruct (IH st1 Hstep) as [Hfin Hall].
    destruct (mcp_run' st1 rest) as [st2 ress]. cbn [fst snd] in *.
    split; [exact Hfin|]. constructor; [|exact Hall].
    intros Hsid Hauth. specialize (Hres Hsid Hnone). rewrite Hauth in Hres.
    congruence.
Qed.

(** The entries stay filed under the id of their transport. *)
Lemma mcp_filed_by_id (st : State W) (req : Request) :
  filed_by_id (transports st) -> filed_by_id (transports (fst (mcp' st req))).
Proof.
  intros Hwf. rewrite mcp_is_first_route.
  destruct (authMiddleware env req); [exact Hwf|].
  assert (Hserve : forall t, filed_by_id (transports (fst (serve handleRequest st t req)))).
  { intros t. unfold serve. destruct (handleRequest (world st) t req) as [w eff].
    cbn [fst transports]. destruct (action eff) as [|newId|]; [exact Hwf| |].
    - unfold onsessioninitialized. intros k tr Hk.
      destruct (decide (newId = k)) as [->|Hne].
      + rewrite lookup_insert_eq in Hk. injection Hk as <-. reflexivity.
      + rewrite lookup_insert_ne in Hk by exact Hne. exact (Hwf k tr Hk).
    - unfold onclose. destruct (JS.present (sessionId t)) as [s|]; [|exact Hwf].
      intros k tr Hk. destruct (decide (s = k)) as [->|Hne].
      + rewrite lookup_delete_eq in Hk. discriminate.
      + rewrite lookup_delete_ne in Hk by exact Hne. exact (Hwf k tr Hk). }
  unfold mcpHandler.
  destruct (lookupSession st (mcp_session_id req)) as [t|].
  - specialize (Hserve t). destruct (serve handleRequest st t req). exact Hserve.
  - destruct (_ && _).
    + specialize (Hserve {| sessionId := None |}).
      destruct (serve handleRequest st _ req). exact Hserve.
    + destruct (_ && _); exact Hwf.
Qed.

(** So the fact holds in every state the routes reach from the empty map. *)
Lemma mcp_run_filed_by_id (reqs : list Request) (st : State W) :
  filed_by_id (transports st) ->
  filed_by_id (transports (fst (mcp_run' st reqs))).
Proof.
  revert st. induction reqs as [|req rest IH]; intros st Hwf; [exact Hwf|].
  cbn [mcp_run]. pose proof (mcp_filed_by_id st req Hwf) as Hstep.
  destruct (mcp' st req) as [st1 res]. cbn [fst] in Hstep.
  specialize (IH st1 Hstep). destruct (mcp_run' st1 rest) as [st2 ress].
  exact IH.
Qed.

End ServerFacts.


(** No request has been served yet: the map is empty, and filed by id. *)
Lemma filed_by_id_empty : filed_by_id ∅.
Proof. intros sid t H. rewrite lookup_empty in H. discriminate. Qed.

(** C5. A request that carries a session id the map does not know leaves
    the state as it is (no session is created, the SDK is not called), and
    once past the authentication gate it is answered with the
    unknown-session failure, 400 [Invalid session ID]. *)
Theorem unknown_session_is_rejected {W : Type}
    (handleRequest : W -> Transport -> Request -> W * SdkEffect)
    (env : ProcessEnv) (st : State W) (req : Request) (sid : string) :
  JS.present (mcp_session_id req) = Some sid ->
  transports st !! sid = None ->
  fst (mcp handleRequest env st req) = st
  /\ (authMiddleware env req = AuthNext ->
      snd (mcp handleRequest env st req) = invalidSession).
Proof.
  intros Hsid Hnone. rewrite (mcp_unknown handleRequest env st req sid Hsid Hnone).
  split; [reflexivity|]. intros ->. reflexivity.
Qed.

Lemma unknown_session_is_rejected_witness :
  mcp demoSdk demoEnv demoState (bearer "s3cret" POST (Some "s2"))
  = (demoState, invalidSession).
Proof.
  assert (Hsid : JS.present (mcp_session_id (bearer "s3cret" POST (Some "s2")))
                 = Some "s2") by reflexivity.
  assert (Hnone : transports demoState !! "s2" = None) by (vm_compute; reflexivity).
  destruct (unknown_session_is_rejected demoSdk demoEnv demoState
              (bearer "s3cret" POST (Some "s2")) "s2" Hsid Hnone) as [Hst Hres].
  specialize (Hres eq_refl).
  destruct (mcp demoSdk demoEnv demoState (bearer "s3cret" POST (Some "s2")))
    as [st' res].
  simpl in Hst, Hres. rewrite Hst, Hres. reflexivity.
Defined.

(** C6, on the code as it is wired.  [setupMCPRoutes] registers a teardown
    handler with [app.delete] that answers 404 [Session not found] for an
    unknown or closed session and closes and removes a live one, but it
    registers it after the [app.all] handler, which answers every request
    itself: the teardown handler is never run (the answers are those of the
    routes without it).  So an authenticated DELETE that names an unknown
    session gets 400 [Invalid session ID] from the [app.all] handler, not
    the 404 of the teardown handler; and one that names a live session is
    handed to the SDK transport, where the teardown handler would have
    closed the transport, removed the entry and answered [closed]. *)
Theorem teardown_route_is_shadowed {W : Type}
    (handleRequest : W -> Transport -> Request -> W * SdkEffect)
    (env : ProcessEnv) (st : State W) (req : Request) (sid : string) :
  method req = DELETE ->
  authMiddleware env req = AuthNext ->
  JS.present (mcp_session_id req) = Some sid ->
  (forall st0 req0,
     mcp handleRequest env st0 req0
     = express_dispatch (take 1 (routes handleRequest env)) st0 req0)
  /\ (transports st !! sid = None ->
      mcp handleRequest env st req = (st, invalidSession)
      /\ guarded env deleteHandler st req
         = (st, Sent (status_json 404 [("error", "Session not found")]))
      /\ status invalidSession = 400)
  /\ (forall t,
        transports st !! sid = Some t ->
        mcp handleRequest env st req = serve handleRequest st t req
        /\ snd (guarded env deleteHandler st req) = Sent (json [("status", "closed")])
        /\ transports (fst (guarded env deleteHandler st req)) !! sid = None).
Proof.
  intros Hdel Hauth Hsid. split; [|split].
  - intros st0 req0. rewrite mcp_is_first_route.
    cbn [take routes express_dispatch accepts run]. unfold guarded.
    destruct (authMiddleware env req0); [reflexivity|].
    destruct (mcpHandler_sends handleRequest st0 req0) as (st' & res & ->).
    reflexivity.
  - intros Hnone.
    rewrite (mcp_unknown handleRequest env st req sid Hsid Hnone), Hauth.
    unfold guarded, deleteHandler. rewrite Hauth, Hsid, Hnone.
    repeat split.
  - intros t Ht.
    rewrite (mcp_known handleRequest env st req sid t Hauth Hsid Ht).
    unfold guarded, deleteHandler. rewrite Hauth, Hsid, Ht. cbn [fst snd transports].
    repeat split. apply lookup_delete_eq.
Qed.


Lemma teardown_route_is_shadowed_witness :
  mcp demoSdk demoEnv demoState (bearer "s3cret" DELETE (Some "s2"))
  = (demoState, status_json 400 [("error", "Invalid session ID")])
  /\ guarded demoEnv deleteHandler demoState (bearer "s3cret" DELETE (Some "s2"))
     = (demoState, Sent (status_json 404 [("error", "Session not found")])).
Proof.
  assert (Hnone : transports demoState !! "s2" = None) by (vm_compute; reflexivity).
  destruct (teardown_route_is_shadowed demoSdk demoEnv demoState
              (bearer "s3cret" DELETE (Some "s2")) "s2" eq_refl eq_refl eq_refl)
    as (_ & Hunknown & _).
  destruct (Hunknown Hnone) as (Hlive & Hdead & _).
  split; [exact Hlive | exact Hdead].
Defined.

(** With the demo SDK, which closes a transport on DELETE: the first DELETE
    of a live session is answered by the SDK, and a second one gets 400
    [Invalid session ID]. *)
Example teardown_twice :
  snd (mcp_run demoSdk demoEnv demoState
         [bearer "s3cret" DELETE (Some "s1"); bearer "s3cret" DELETE (Some "s1");
          bearer "s3cret" GET (Some "s1")])
  = [ {| status := 200; payload := Raw "" |}; invalidSession; invalidSession ].
Proof. vm_compute. reflexivity. Qed.

(** * More of the code *)

Example dirname_ex :
  (dirname "/data/sub/file.txt", dirname "/data", dirname "notes.md",
   dirname "/a/b/", dirname "//a", dirname "", dirname "/")
  = ("/data/sub", "/", ".", "/a", "//", ".", "/").
Proof. reflexivity. Qed.

Example cut_ex : Str.cut "--" "ab--cd--e" = Some ("ab", "cd--e").
Proof. reflexivity. Qed.

Example endsWith_ex :
  (Str.endsWith "note.md" ".md", Str.endsWith "md" ".md", Str.endsWith "x" "")
  = (true, false, true).
Proof. reflexivity. Qed.

Example floorDiv_ex :
  (Num.floorDiv 3725 3600, Num.floorDiv 125 60, Num.floorDiv (-1) 60,
   Num.floorDiv 7200 3600, Num.floorDiv (2 ^ 53) 3)
  = (1, 2, -1, 2, 3002399751580330).
Proof. vm_compute. reflexivity. Qed.

Example validTableName_ex :
  (validTableName "notes_2", validTableName "2notes", validTableName "",
   validTableName ("a" +:+ dq), validTableName ("notes" +:+ Str.lf),
   validTableName "undefined")
  = (true, false, false, false, false, true).
Proof. reflexivity. Qed.

Example stripQuotes_ex :
  (stripQuotes ("'a" +:+ dq), stripQuotes "'", stripQuotes "''", stripQuotes "a'b")
  = ("a", "", "", "a'b").
Proof. reflexivity. Qed.

Example parseFrontmatter_ex :
  parseFrontmatter
    ("---" +:+ Str.lf +:+ "title: My note" +:+ Str.lf +:+ "tags: [a, 'b c']"
     +:+ Str.lf +:+ "no colon here" +:+ Str.lf +:+ ": x" +:+ Str.lf +:+ "---"
     +:+ Str.lf +:+ "Body" +:+ Str.lf +:+ "---" +:+ Str.lf +:+ "more")
  = ({[ "title" := FmString "My note"; "tags" := FmArray ["a"; "b c"] ]},
     "Body" +:+ Str.lf +:+ "---" +:+ Str.lf +:+ "more").
Proof. vm_compute. reflexivity. Qed.

Example parseFrontmatter_empty_yaml :
  parseFrontmatter ("---" +:+ Str.lf +:+ "---" +:+ Str.lf +:+ "Body")
  = (∅, "---" +:+ Str.lf +:+ "---" +:+ Str.lf +:+ "Body").
Proof. vm_compute. reflexivity. Qed.

Example extractWikilinks_ex :
  extractWikilinks "see [[A]] and [[b/c|the c]], [[A]] again, [[|x]] [[d|]] [[e]"
  = ["A"; "b/c"].
Proof. reflexivity. Qed.

Example extractWikilinks_nested :
  extractWikilinks "[[a[[b]] [[c]]" = ["a[[b"; "c"].
Proof. reflexivity. Qed.

(** ** The registry: registering and calling *)

(** X1. A definition registered under a name takes the place of whatever
    was registered under it: [callTool] on that name runs the new handler
    (its result as it is, its fault as an error result), and every other
    name dispatches as before. *)
Theorem callTool_after_registerTool {Args : Type}
    (reg : gmap string (ToolDefinition Args)) (def : ToolDefinition Args)
    (nm : string) (args : Args) :
  callTool (registerTool reg def) nm args =
  if decide (nm = name (tool def)) then
    match handler def args with
    | Returns r => Returns r
    | Throws e => Returns (errorResult ("Tool error: " +:+ errorMessage e))
    end
  else callTool reg nm args.
Proof.
  unfold callTool, getToolHandler, registerTool.
  destruct (decide (nm = name (tool def))) as [->|Hne].
  - rewrite lookup_insert_eq. reflexivity.
  - rewrite lookup_insert_ne by congruence. reflexivity.
Qed.

(** ** The gate in front of the routes *)

Section GateFacts.

Context {W : Type}.
Variable handleRequest : W -> Transport -> Request -> W * SdkEffect.
Variable env : ProcessEnv.

(** Requests the gate rejects go no further. *)
Lemma mcp_run_rejected (reqs : list Request) (st : State W) :
  Forall (fun req => authMiddleware env req <> AuthNext) reqs ->
  fst (mcp_run handleRequest env st reqs) = st
  /\ Forall2 (fun req res => authMiddleware env req = AuthReject res)
             reqs (snd (mcp_run handleRequest env st reqs)).
Proof.
  induction 1 as [|req rest Hrej _ IH]; [split; [reflexivity | constructor]|].
  cbn [mcp_run]. rewrite mcp_is_first_route.
  destruct (authMiddleware env req) as [res|] eqn:Hauth; [|contradiction].
  destruct IH as [Hst Hall].
  destruct (mcp_run handleRequest env st rest) as [st2 ress]. cbn [fst snd] in *.
  split; [exact Hst|]. constructor; [exact Hauth | exact Hall].
Qed.

End GateFacts.

(** X2. Requests that do not pass [authMiddleware] leave the map of
    sessions and the SDK untouched, however many they are, and each gets
    the answer of the gate. *)
Theorem rejected_requests_change_nothing {W : Type}
    (handleRequest : W -> Transport -> Request -> W * SdkEffect)
    (env : ProcessEnv) (st : State W) (reqs : list Request) :
  Forall (fun req => authMiddleware env req <> AuthNext) reqs ->
  fst (mcp_run handleRequest env st reqs) = st
  /\ Forall2 (fun req res => authMiddleware env req = AuthReject res)
             reqs (snd (mcp_run handleRequest env st reqs)).
Proof. apply mcp_run_rejected. Qed.

Lemma rejected_requests_change_nothing_witness :
  fst (mcp_run demoSdk demoEnv demoState
         [anonymous POST None; bearer "guess" DELETE (Some "s1")])
  = demoState.
Proof.
  refine (proj1 (rejected_requests_change_nothing demoSdk demoEnv demoState
                   [anonymous POST None; bearer "guess" DELETE (Some "s1")] _)).
  repeat constructor; discriminate.
Defined.

(** X4. With a configured token that has no space in it, the gate lets a
    request through exactly when its [Authorization] header is
    [Bearer <token>], or starts with [Bearer <token>] and a space: what
    follows that space is not looked at, and the scheme is compared as
    written. *)
Theorem authMiddleware_accepts_exactly (env : ProcessEnv) (expected : string)
    (req : Request) :
  JS.present (MCP_TOKEN env) = Some expected ->
  JS.includes expected " " = false ->
  (authMiddleware env req = AuthNext
   <-> exists h, authorization req = Some h
         /\ (h = "Bearer " +:+ expected
             \/ JS.startsWith h ("Bearer " +:+ expected +:+ " ") = true)).
Proof.
  intros Htok Hns. rewrite authMiddleware_next_iff. split.
  - intros (e & h & He & Hh & H0 & H1). rewrite Htok in He. injection He as <-.
    assert (Hreq : authorization req = Some h).
    { destruct (authorization req) as [x|]; [|discriminate]. simpl in Hh.
      destruct (JS.truthy x); congruence. }
    exists h. split; [exact Hreq|].
    destruct (JS.split " " h) as [|p0 [|p1 tl]] eqn:Hsplit; try discriminate.
    simpl in H0, H1. injection H0 as ->. injection H1 as ->.
    destruct (split_first _ _ _ _ Hsplit) as [_ [[Hnil _]|[s' [-> Hs']]]];
      [discriminate|].
    symmetry in Hs'. destruct (split_first _ _ _ _ Hs') as [_ [[_ ->]|[s'' [-> _]]]].
    + left. reflexivity.
    + right. apply startsWith_iff. exists s''.
      change ("Bearer" +:+ String " " (expected +:+ String " " s''))
        with ("Bearer " +:+ (expected +:+ " " +:+ s'')).
      rewrite !append_assoc. reflexivity.
  - intros (h & Hreq & Hshape).
    assert (Hsplit : exists tl, JS.split " " h = "Bearer" :: expected :: tl).
    { destruct Hshape as [->|Hpre].
      - exists []. apply split_bearer. exact Hns.
      - apply startsWith_iff in Hpre. destruct Hpre as [r ->].
        exists (JS.split " " r).
        replace (("Bearer " +:+ expected +:+ " ") +:+ r)
          with ("Bearer" +:+ String " " (expected +:+ String " " r)).
        + rewrite split_app_sep by reflexivity.
          rewrite split_app_sep by exact Hns. reflexivity.
        + change ("Bearer" +:+ String " " (expected +:+ String " " r))
            with ("Bearer " +:+ (expected +:+ " " +:+ r)).
          rewrite !append_assoc. reflexivity. }
    destruct Hsplit as [tl Hsplit].
    exists expected, h. split; [exact Htok|]. split.
    + rewrite Hreq. destruct Hshape as [->|Hpre]; [reflexivity|].
      destruct h; [discriminate Hpre | reflexivity].
    + rewrite Hsplit. split; reflexivity.
Qed.

Lemma authMiddleware_accepts_exactly_witness :
  authMiddleware demoEnv
    {| method := POST; authorization := Some "Bearer s3cret and more";
       mcp_session_id := None; body := "" |} = AuthNext.
Proof.
  refine (proj2 (authMiddleware_accepts_exactly demoEnv "s3cret" _ _ _) _);
    [reflexivity | reflexivity |].
  eexists. split; [reflexivity|]. right. reflexivity.
Defined.

(** ** Sessions: probes, new sessions, and sessions side by side *)

Section SessionFacts.

Context {W : Type}.
Variable handleRequest : W -> Transport -> Request -> W * SdkEffect.
Variable env : ProcessEnv.

Lemma lookupSession_not_given (st : State W) (o : option string) :
  JS.given o = false -> lookupSession st o = None.
Proof.
  unfold JS.given, lookupSession. destruct (JS.present o); [discriminate | reflexivity].
Qed.




End SessionFacts.

(** X5. An authenticated request that is not a POST and carries no session
    id (a GET, but a DELETE as well) is answered with the name, version and
    transport of the server; no session is created and the SDK is not
    called. *)
Theorem probe_creates_nothing {W : Type}
    (handleRequest : W -> Transport -> Request -> W * SdkEffect)
    (env : ProcessEnv) (st : State W) (req : Request) :
  authMiddleware env req = AuthNext ->
  JS.given (mcp_session_id req) = false ->
  method req <> POST ->
  mcp handleRequest env st req
  = (st, json [("name", "pi-mcp-server"); ("version", "1.0.0");
               ("transport", "streamable-http")]).
Proof.
  intros Hauth Hnone Hmethod. rewrite mcp_is_first_route, Hauth.
  unfold mcpHandler. rewrite (lookupSession_not_given st _ Hnone), Hnone.
  destruct (method req); try contradiction; reflexivity.
Qed.

Lemma probe_creates_nothing_witness :
  mcp demoSdk demoEnv demoState (bearer "s3cret" DELETE None)
  = (demoState, json [("name", "pi-mcp-server"); ("version", "1.0.0");
                      ("transport", "streamable-http")]).
Proof.
  apply (probe_creates_nothing demoSdk demoEnv demoState (bearer "s3cret" DELETE None));
    [reflexivity | reflexivity | discriminate].
Defined.


(** X7. A new session and its next request.  For an authenticated POST
    without a session id: if the SDK initialises the transport with the
    (non-empty) id [newId], the map holds a transport for [newId]
    afterwards, and the next authenticated request that names [newId] is
    served by that transport; if the SDK answers without initialising, the
    map is as before. *)
Theorem new_session_is_recorded {W : Type}
    (handleRequest : W -> Transport -> Request -> W * SdkEffect)
    (env : ProcessEnv) (st : State W) (req : Request) :
  authMiddleware env req = AuthNext ->
  method req = POST ->
  JS.given (mcp_session_id req) = false ->
  (forall newId,
     action (snd (handleRequest (world st) {| sessionId := None |} req))
       = Initialize newId ->
     JS.truthy newId = true ->
     let st' := fst (mcp handleRequest env st req) in
     transports st' !! newId = Some {| sessionId := Some newId |}
     /\ forall req',
          authMiddleware env req' = AuthNext ->
          mcp_session_id req' = Some newId ->
          mcp handleRequest env st' req'
          = serve handleRequest st' {| sessionId := Some newId |} req')
  /\ (action (snd (handleRequest (world st) {| sessionId := None |} req)) = Answer ->
      transports (fst (mcp handleRequest env st req)) = transports st).
Proof.
  intros Hauth Hpost Hnone.
  assert (Hmcp : mcp handleRequest env st req
                 = serve handleRequest st {| sessionId := None |} req).
  { rewrite mcp_is_first_route, Hauth. unfold mcpHandler.
    rewrite (lookupSession_not_given st _ Hnone), Hnone, Hpost. cbn.
    destruct (serve handleRequest st _ req). reflexivity. }
  rewrite Hmcp. split.
  - intros newId Hinit Htruthy st'.
    assert (Hin : transports st' !! newId = Some {| sessionId := Some newId |}).
    { subst st'. unfold serve.
      destruct (handleRequest (world st) {| sessionId := None |} req) as [w eff].
      cbn [snd] in Hinit. cbn [fst transports]. rewrite Hinit.
      apply lookup_insert_eq. }
    split; [exact Hin|].
    intros req' Hauth' Hsid'.
    apply (mcp_known handleRequest env st' req' newId); [exact Hauth' | | exact Hin].
    rewrite Hsid'. simpl. rewrite Htruthy. reflexivity.
  - unfold serve.
    destruct (handleRequest (world st) {| sessionId := None |} req) as [w eff].
    cbn [snd fst transports]. intros ->. reflexivity.
Qed.

Lemma new_session_is_recorded_witness :
  transports (fst (mcp demoSdk demoEnv demoState (bearer "s3cret" POST None))) !! "#"
  = Some {| sessionId := Some "#" |}.
Proof.
  refine (proj1 (proj1 (new_session_is_recorded demoSdk demoEnv demoState
                          (bearer "s3cret" POST None) _ _ _) "#" _ _));
    reflexivity.
Defined.


(** ** The command whitelist and [run_command] *)

Lemma trimEnd_app (x y : string) :
  JS.trimEnd (x +:+ y)
  = match JS.trimEnd y with
    | EmptyString => JS.trimEnd x
    | String _ _ => x +:+ JS.trimEnd y
    end.
Proof.
  induction x as [|c x IH].
  - rewrite append_nil_l. destruct (JS.trimEnd y); reflexivity.
  - rewrite append_cons. cbn [JS.trimEnd]. rewrite IH.
    destruct (JS.trimEnd y) as [|d r]; [reflexivity|].
    rewrite append_cons.
    destruct x; [rewrite append_nil_l | rewrite append_cons]; reflexivity.
Qed.

Lemma trimStart_length (s : string) :
  (String.length (JS.trimStart s) <= String.length s)%nat.
Proof.
  induction s as [|c s IH]; [reflexivity|].
  cbn [JS.trimStart]. destruct (JS.isWhiteSpace c); simpl; lia.
Qed.

Lemma trimEnd_length (s : string) :
  (String.length (JS.trimEnd s) <= String.length s)%nat.
Proof.
  induction s as [|c s IH]; [reflexivity|].
  cbn [JS.trimEnd]. destruct (JS.trimEnd s) as [|d r].
  - destruct (JS.isWhiteSpace c); simpl; lia.
  - simpl in *. lia.
Qed.

(** A string that [trim] leaves alone has no white space at either end. *)
Lemma trim_fixed (s : string) :
  JS.trim s = s -> JS.trimStart s = s /\ JS.trimEnd s = s.
Proof.
  unfold JS.trim. intros H.
  assert (Hs : JS.trimStart s = s).
  { destruct s as [|c s]; [reflexivity|].
    cbn [JS.trimStart] in *. destruct (JS.isWhiteSpace c); [|reflexivity].
    exfalso.
    pose proof (trimEnd_length (JS.trimStart s)) as H1.
    pose proof (trimStart_length s) as H2.
    rewrite H in H1. simpl in H1. lia. }
  split; [exact Hs|]. rewrite Hs in H. exact H.
Qed.

Lemma trimStart_app (a x : string) :
  a <> EmptyString -> JS.trimStart a = a -> JS.trimStart (a +:+ x) = a +:+ x.
Proof.
  destruct a as [|c a]; [contradiction|]. intros _ H.
  rewrite append_cons. cbn [JS.trimStart] in *.
  destruct (JS.isWhiteSpace c); [|reflexivity].
  exfalso. pose proof (trimStart_length a) as Hl. rewrite H in Hl. simpl in Hl. lia.
Qed.

(** [trim] on an entry followed by a space and more. *)
Lemma trim_entry_suffix (a rest : string) :
  a <> EmptyString -> JS.trim a = a ->
  JS.trim (a +:+ " " +:+ rest) = a
  \/ exists r, JS.trim (a +:+ " " +:+ rest) = (a +:+ " ") +:+ r.
Proof.
  intros Hne Hfix. destruct (trim_fixed a Hfix) as [Hs He].
  unfold JS.trim. rewrite (trimStart_app a _ Hne Hs), trimEnd_app.
  change (" " +:+ rest) with (String " " rest). cbn [JS.trimEnd].
  destruct (JS.trimEnd rest) as [|d r] eqn:Hr.
  - left. exact He.
  - right. exists (String d r). rewrite append_assoc. reflexivity.
Qed.

(** X9. Whatever follows an allowed command and a space is allowed with
    it: for an entry [a] of the whitelist (non-empty, no white space at its
    ends) and any text [rest], the command [a rest] passes
    [isCommandAllowed], a shell separator in [rest] included.  Every entry
    of [ALLOWED_COMMANDS] is such an entry. *)
Theorem isCommandAllowed_any_suffix (allowedCommands : list string)
    (a rest : string) :
  In a allowedCommands ->
  a <> EmptyString ->
  JS.trim a = a ->
  isCommandAllowedIn allowedCommands (a +:+ " " +:+ rest) = true
  /\ (forall entry tail,
        In entry ALLOWED_COMMANDS ->
        isCommandAllowed (entry +:+ " " +:+ tail) = true).
Proof.
  assert (Hgen : forall allowed e tail,
            In e allowed -> e <> EmptyString -> JS.trim e = e ->
            isCommandAllowedIn allowed (e +:+ " " +:+ tail) = true).
  { intros allowed e tail Hin Hne Hfix. unfold isCommandAllowedIn.
    apply orb_true_iff.
    destruct (trim_entry_suffix e tail Hne Hfix) as [->|[r ->]].
    - left. apply has_iff. exact Hin.
    - right. apply existsb_exists. exists e. split; [exact Hin|].
      apply startsWith_app. }
  intros Hin Hne Hfix. split; [apply Hgen; assumption|].
  intros entry tail Hentry. apply Hgen; [exact Hentry | |].
  - intros ->. simpl in Hentry.
    repeat (destruct Hentry as [Hentry|Hentry]; [discriminate Hentry|]).
    exact Hentry.
  - simpl in Hentry.
    repeat (destruct Hentry as [<-|Hentry]; [reflexivity|]). destruct Hentry.
Qed.

Lemma isCommandAllowed_any_suffix_witness :
  isCommandAllowedIn ["df"; "uptime"] "df ; rm -rf /" = true.
Proof.
  apply (proj1 (isCommandAllowed_any_suffix ["df"; "uptime"] "df" "; rm -rf /"
                  (or_introl eq_refl) ltac:(discriminate) eq_refl)).
Defined.

(** X10. [run_command] hands to the shell exactly the string it was given
    (not the trimmed one) when [isCommandAllowed] accepts it, and nothing
    otherwise; a refusal is an error result that quotes the command; a
    failure of the command is an error result too, never a fault of the
    handler. *)
Theorem run_command_is_gated (exec : string -> Outcome (string * string))
    (command : string) :
  fst (run_command exec command)
  = (if isCommandAllowed command then [command] else [])
  /\ (isCommandAllowed command = false ->
      exists r, snd (run_command exec command) = Returns r
                /\ errorFlagged r /\ mentions r command)
  /\ (forall e, exec command = Throws e ->
      isCommandAllowed command = true ->
      snd (run_command exec command)
      = Returns (errorResult ("Command failed: " +:+ errorMessage e)))
  /\ exists r, snd (run_command exec command) = Returns r.
Proof.
  unfold run_command. destruct (isCommandAllowed command) eqn:Hallowed; cbn [negb].
  - destruct (exec command) as [[stdout stderr]|e] eqn:Hexec.
    + split; [reflexivity|]. split; [discriminate|]. split; [discriminate|]. eauto.
    + split; [reflexivity|]. split; [discriminate|].
      split; [intros e' [= <-] _; reflexivity | eauto].
  - split; [reflexivity|]. split; [|split; [discriminate | eauto]].
    intros _. eexists. split; [reflexivity|]. split; [reflexivity|].
    constructor. cbn [text]. apply includes_iff.
    exists "Command not allowed: ". eexists. reflexivity.
Qed.

Lemma run_command_is_gated_witness :
  exists r, snd (run_command (fun _ => Throws (OtherValue "killed")) "rm -rf /")
            = Returns r /\ errorFlagged r /\ mentions r "rm -rf /".
Proof.
  apply (proj1 (proj2 (run_command_is_gated
                         (fun _ => Throws (OtherValue "killed")) "rm -rf /"))).
  reflexivity.
Defined.

Example run_command_output :
  snd (run_command (fun _ => Returns ("", "")) "uptime") = Returns (textResult "(no output)")
  /\ snd (run_command (fun _ => Returns ("up 3 days", "")) " uptime")
     = Returns (textResult "up 3 days")
  /\ fst (run_command (fun _ => Returns ("", "")) " uptime") = [" uptime"].
Proof. repeat split. Qed.

(** ** The allowlist of paths: its entries, and the handlers behind it *)

Lemma trimStart_idem (s : string) : JS.trimStart (JS.trimStart s) = JS.trimStart s.
Proof.
  induction s as [|c s IH]; [reflexivity|].
  cbn [JS.trimStart]. destruct (JS.isWhiteSpace c) eqn:Hc; [exact IH|].
  cbn [JS.trimStart]. rewrite Hc. reflexivity.
Qed.

Lemma trimEnd_cons (c : ascii) (s : string) :
  JS.trimEnd (String c s)
  = match JS.trimEnd s with
    | EmptyString => if JS.isWhiteSpace c then EmptyString else String c EmptyString
    | String d r => String c (String d r)
    end.
Proof. reflexivity. Qed.

Lemma trimEnd_idem (s : string) : JS.trimEnd (JS.trimEnd s) = JS.trimEnd s.
Proof.
  induction s as [|c s IH]; [reflexivity|].
  rewrite trimEnd_cons. destruct (JS.trimEnd s) as [|d r] eqn:Hr.
  - destruct (JS.isWhiteSpace c) eqn:Hc; [reflexivity|].
    rewrite trimEnd_cons. cbn [JS.trimEnd]. rewrite Hc. reflexivity.
  - rewrite trimEnd_cons, IH. reflexivity.
Qed.

(** Trimming the end does not bring white space to the front. *)
Lemma trimStart_trimEnd (s : string) :
  JS.trimStart s = s -> JS.trimStart (JS.trimEnd s) = JS.trimEnd s.
Proof.
  destruct s as [|c s]; [reflexivity|].
  cbn [JS.trimStart JS.trimEnd]. destruct (JS.isWhiteSpace c) eqn:Hc.
  - intros H. exfalso. pose proof (trimStart_length s) as Hl.
    rewrite H in Hl. simpl in Hl. lia.
  - intros _. destruct (JS.trimEnd s); cbn [JS.trimStart]; rewrite Hc; reflexivity.
Qed.

Lemma trim_idem (s : string) : JS.trim (JS.trim s) = JS.trim s.
Proof.
  unfold JS.trim.
  rewrite (trimStart_trimEnd (JS.trimStart s) (trimStart_idem s)).
  apply trimEnd_idem.
Qed.

Lemma split_nonempty (sep : ascii) (s : string) : JS.split sep s <> [].
Proof.
  destruct s as [|c s]; simpl; [discriminate|].
  destruct (Ascii.eqb c sep); [discriminate|].
  destruct (JS.split sep s); discriminate.
Qed.

(** The pieces of a list of paths written with commas. *)
Lemma split_app (sep : ascii) (a b : string) :
  JS.split sep (a +:+ String sep b)
  = JS.split sep a ++ JS.split sep b.
Proof.
  induction a as [|c a IH].
  - rewrite append_nil_l. simpl. rewrite Ascii.eqb_refl. reflexivity.
  - rewrite append_cons. cbn [JS.split]. destruct (Ascii.eqb c sep).
    + rewrite IH. reflexivity.
    + rewrite IH. pose proof (split_nonempty sep a) as Hne.
      destruct (JS.split sep a) as [|h t]; [contradiction | reflexivity].
Qed.

(** [isPathAllowed] without its first test: an empty list allows nothing
    anyway. *)
Lemma isPathAllowed_existsb (env : ProcessEnv) (targetPath : string) :
  isPathAllowed env targetPath
  = existsb (fun allowedPath =>
               JS.startsWith (Path.resolve (cwd env) targetPath)
                             (Path.resolve (cwd env) allowedPath))
            (getAllowedPaths env).
Proof.
  unfold isPathAllowed. destruct (getAllowedPaths env); reflexivity.
Qed.

(** X11. Every entry [getAllowedPaths] returns is non-empty and has no
    white space at its ends, whatever [ALLOWED_PATHS] holds: blank pieces
    between commas never become entries. *)
Theorem getAllowedPaths_entries_are_trimmed (env : ProcessEnv) (p : string) :
  In p (getAllowedPaths env) ->
  p <> EmptyString /\ JS.trim p = p.
Proof.
  unfold getAllowedPaths. intros Hin.
  apply filter_In in Hin. destruct Hin as [Hin Htruthy].
  apply in_map_iff in Hin. destruct Hin as [raw [<- _]].
  split; [|apply trim_idem].
  intros Heq. rewrite Heq in Htruthy. discriminate.
Qed.

Lemma getAllowedPaths_entries_are_trimmed_witness :
  "/srv/notes" <> EmptyString /\ JS.trim "/srv/notes" = "/srv/notes".
Proof.
  apply (getAllowedPaths_entries_are_trimmed (allowing " /data ,, /srv/notes " "/")).
  simpl. right. left. reflexivity.
Defined.

(** X12. The entries of [ALLOWED_PATHS] count one by one: a candidate is
    allowed under the list [a,b] exactly when it is allowed under [a] or
    under [b].  Adding an entry never takes an access away. *)
Theorem isPathAllowed_union (a b wd : string) (targetPath : string) :
  isPathAllowed (allowing (a +:+ "," +:+ b) wd) targetPath
  = isPathAllowed (allowing a wd) targetPath
    || isPathAllowed (allowing b wd) targetPath.
Proof.
  rewrite !isPathAllowed_existsb. cbn [cwd allowing].
  assert (Hpaths : getAllowedPaths (allowing (a +:+ "," +:+ b) wd)
                   = getAllowedPaths (allowing a wd) ++ getAllowedPaths (allowing b wd)).
  { unfold getAllowedPaths. cbn [ALLOWED_PATHS allowing].
    assert (Hdef : forall s, default EmptyString (JS.present (Some s)) = s).
    { intros [|c s]; reflexivity. }
    rewrite !Hdef.
    change (a +:+ "," +:+ b) with (a +:+ String "," b).
    rewrite split_app, map_app. apply Stdlib.Lists.List.filter_app. }
  rewrite Hpaths. apply existsb_app.
Qed.

(** X13. [read_file] reads nothing it is not allowed to: with no entry
    configured it touches no file, whatever the path; and whenever it does
    read, it reads the path it was given, and the resolved form of that
    path starts with the resolved form of a configured entry.  A failed
    read is an error result. *)
Theorem read_file_is_guarded (env : ProcessEnv) (fs : Fs) (filePath : string) :
  (getAllowedPaths env = [] ->
   read_file env fs filePath = ([], Returns (accessDenied filePath)))
  /\ (forall call, In call (fst (read_file env fs filePath)) ->
      call = ReadFile filePath
      /\ exists allowedPath, In allowedPath (getAllowedPaths env)
           /\ JS.startsWith (Path.resolve (cwd env) filePath)
                            (Path.resolve (cwd env) allowedPath) = true)
  /\ (forall e, readFile fs filePath = Throws e ->
      isPathAllowed env filePath = true ->
      snd (read_file env fs filePath)
      = Returns (errorResult ("Failed to read file: " +:+ errorMessage e))).
Proof.
  unfold read_file. split; [|split].
  - intros Hempty. unfold isPathAllowed. rewrite Hempty. reflexivity.
  - intros call. destruct (isPathAllowed env filePath) eqn:Hallowed; cbn [negb].
    + apply isPathAllowed_iff in Hallowed.
      destruct (readFile fs filePath); cbn [fst];
        (intros [<-|[]]; split; [reflexivity | exact Hallowed]).
    + intros [].
  - intros e He ->. cbn [negb]. rewrite He. reflexivity.
Qed.

Lemma read_file_is_guarded_witness :
  read_file (allowing " , " "/") demoFs "/data/a.txt"
  = ([], Returns (accessDenied "/data/a.txt"))
  /\ snd (read_file demoEnv demoFs "/data/b.txt")
     = Returns (errorResult "Failed to read file: ENOENT: no such file or directory").
Proof.
  split.
  - apply (proj1 (read_file_is_guarded (allowing " , " "/") demoFs "/data/a.txt")).
    reflexivity.
  - apply (proj2 (proj2 (read_file_is_guarded demoEnv demoFs "/data/b.txt"))
             (ErrorInstance "ENOENT: no such file or directory")); reflexivity.
Defined.

(** X14. [write_file] creates and writes nothing for a path that is not
    allowed; for an allowed one it first makes the directory of the path,
    and writes the file, with the content it was given, only if that
    succeeded: a failed [mkdir] leaves the file unwritten and gives an error
    result. *)
Theorem write_file_is_guarded (env : ProcessEnv) (fs : Fs) (filePath data : string) :
  (isPathAllowed env filePath = false ->
   write_file env fs filePath data = ([], Returns (accessDenied filePath)))
  /\ (forall p d, In (WriteFile p d) (fst (write_file env fs filePath data)) ->
      p = filePath /\ d = data
      /\ isPathAllowed env filePath = true
      /\ mkdir fs (dirname filePath) = Returns tt
      /\ fst (write_file env fs filePath data)
         = [Mkdir (dirname filePath); WriteFile filePath data])
  /\ (forall e, isPathAllowed env filePath = true ->
      mkdir fs (dirname filePath) = Throws e ->
      write_file env fs filePath data
      = ([Mkdir (dirname filePath)],
         Returns (errorResult ("Failed to write file: " +:+ errorMessage e)))).
Proof.
  unfold write_file. split; [|split].
  - intros ->. reflexivity.
  - intros p d. destruct (isPathAllowed env filePath); cbn [negb]; [|intros []].
    destruct (mkdir fs (dirname filePath)) as [[]|e].
    + destruct (writeFile fs filePath data); cbn [fst];
        (intros [H|[H|[]]]; [discriminate H|]; injection H as <- <-;
         repeat split; reflexivity).
    + cbn [fst]. intros [H|[]]. discriminate H.
  - intros e -> ->. reflexivity.
Qed.

Lemma write_file_is_guarded_witness :
  write_file demoEnv demoFs "/etc/passwd" "x" = ([], Returns (accessDenied "/etc/passwd"))
  /\ write_file (allowing "/srv" "/") demoFs "/srv/notes/a.md" "x"
     = ([Mkdir "/srv/notes"],
        Returns (errorResult "Failed to write file: EACCES: permission denied")).
Proof.
  split.
  - apply (proj1 (write_file_is_guarded demoEnv demoFs "/etc/passwd" "x")).
    reflexivity.
  - apply (proj2 (proj2 (write_file_is_guarded (allowing "/srv" "/") demoFs
                           "/srv/notes/a.md" "x"))
             (ErrorInstance "EACCES: permission denied")); reflexivity.
Defined.

(** ** The uptime text and the security score *)

(** The rounded quotient is within half a unit of the exact one. *)
Lemma roundHalfEven_near (a b : Z) :
  0 < b ->
  2 * a - b <= 2 * (b * Num.roundHalfEven a b) <= 2 * a + b.
Proof.
  intros Hb. unfold Num.roundHalfEven.
  pose proof (Z.div_mod a b ltac:(lia)) as Hdm.
  pose proof (Z.mod_pos_bound a b Hb) as Hr.
  destruct (Z.ltb_spec (2 * (a mod b)) b); [lia|].
  destruct (Z.ltb_spec b (2 * (a mod b))); [lia|].
  destruct (Z.even (a / b)); lia.
Qed.

(** The binade is not above the quotient: [2^L <= n / d]. *)
Lemma binade_lower (n d : Z) :
  0 < n -> 0 < d ->
  d * 2 ^ Z.max 0 (Num.binade n d) <= n * 2 ^ Z.max 0 (- Num.binade n d).
Proof.
  intros Hn Hd. unfold Num.binade.
  pose proof (Z.log2_spec n Hn) as [Hn1 Hn2].
  pose proof (Z.log2_spec d Hd) as [Hd1 Hd2].
  pose proof (Z.log2_nonneg n) as Hln. pose proof (Z.log2_nonneg d) as Hld.
  set (ln := Z.log2 n) in *. set (ld := Z.log2 d) in *.
  destruct (Z.ltb_spec (n * 2 ^ Z.max 0 (- (ln - ld))) (d * 2 ^ Z.max 0 (ln - ld)))
    as [Hlt|Hge]; [|lia].
  destruct (Z_le_gt_dec 1 (ln - ld)) as [Hk|Hk].
  - rewrite (Z.max_r 0 (ln - ld - 1)) by lia.
    rewrite (Z.max_l 0 (- (ln - ld - 1))) by lia.
    rewrite Z.pow_0_r, Z.mul_1_r.
    assert (E : 2 ^ ln = 2 ^ Z.succ ld * 2 ^ (ln - ld - 1)).
    { rewrite <- Z.pow_add_r by lia. f_equal. lia. }
    pose proof (Z.pow_pos_nonneg 2 (ln - ld - 1) ltac:(lia) ltac:(lia)) as Hp.
    nia.
  - rewrite (Z.max_l 0 (ln - ld - 1)) by lia.
    rewrite (Z.max_r 0 (- (ln - ld - 1))) by lia.
    rewrite Z.pow_0_r, Z.mul_1_r.
    assert (E : 2 ^ Z.succ ld = 2 ^ ln * 2 ^ (- (ln - ld - 1))).
    { rewrite <- Z.pow_add_r by lia. f_equal. lia. }
    pose proof (Z.pow_pos_nonneg 2 (- (ln - ld - 1)) ltac:(lia) ltac:(lia)) as Hp.
    nia.
Qed.

(** Below [2^53] the rounding of the quotient never reaches the next whole
    number, so the floor of the binary64 quotient is the integer quotient. *)
Lemma floorDiv_exact (n d : Z) :
  0 <= n < 2 ^ 53 -> 0 < d -> Num.floorDiv n d = n / d.
Proof.
  intros [Hn0 Hn] Hd. unfold Num.floorDiv.
  destruct (Z.eqb_spec n 0) as [->|Hnz]; [rewrite Z.div_0_l by lia; reflexivity|].
  rewrite (Z.abs_eq n) by lia. rewrite (Z.sgn_pos n) by lia.
  pose proof (binade_lower n d ltac:(lia) Hd) as Hlow.
  set (L := Num.binade n d) in *.
  assert (HL : L <= 52).
  { destruct (Z_le_gt_dec L 52) as [|Hbig]; [assumption|exfalso].
    rewrite (Z.max_r 0 L), (Z.max_l 0 (- L)), Z.pow_0_r, Z.mul_1_r in Hlow by lia.
    pose proof (Z.pow_le_mono_r 2 53 L ltac:(lia) ltac:(lia)) as Hp.
    nia. }
  destruct (Z.leb_spec 0 (L - 52)) as [He|He].
  - assert (L = 52) by lia. subst L.
    replace (Num.binade n d - 52) with 0 by lia.
    replace (Num.binade n d) with 52 in Hlow by lia.
    change (Z.max 0 52) with 52 in Hlow. change (Z.max 0 (- 52)) with 0 in Hlow.
    change (Z.max 0 (- 0)) with 0. change (Z.max 0 0) with 0.
    rewrite Z.pow_0_r, !Z.mul_1_r in *.
    assert (d = 1) by nia. subst d.
    unfold Num.roundHalfEven. rewrite Z.mod_1_r, Z.div_1_r.
    change (2 * 0 <? 1) with true. cbv iota. lia.
  - set (s := - (L - 52)) in *.
    assert (Hs : s = 52 - L) by (unfold s; lia). clearbody s.
    rewrite (Z.max_r 0 s), (Z.max_l 0 (L - 52)), Z.pow_0_r, Z.mul_1_r, Z.mul_1_l by lia.
    pose proof (Z.pow_pos_nonneg 2 s ltac:(lia) ltac:(lia)) as HP.
    assert (HdP : d < 2 * 2 ^ s).
    { destruct (Z_le_gt_dec 0 L) as [HL0|HL0].
      - rewrite (Z.max_r 0 L), (Z.max_l 0 (- L)), Z.pow_0_r, Z.mul_1_r in Hlow by lia.
        assert (E : 2 ^ 53 = 2 ^ L * (2 * 2 ^ s)).
        { rewrite <- (Z.pow_succ_r 2 s) by lia. rewrite <- Z.pow_add_r by lia.
          f_equal. lia. }
        pose proof (Z.pow_pos_nonneg 2 L ltac:(lia) ltac:(lia)) as HPL.
        nia.
      - rewrite (Z.max_l 0 L), (Z.max_r 0 (- L)), Z.pow_0_r, Z.mul_1_r in Hlow by lia.
        assert (E : 2 * 2 ^ s = 2 ^ 53 * 2 ^ (- L)).
        { rewrite <- (Z.pow_succ_r 2 s) by lia. rewrite <- Z.pow_add_r by lia.
          f_equal. lia. }
        pose proof (Z.pow_pos_nonneg 2 (- L) ltac:(lia) ltac:(lia)) as HPL.
        nia. }
    pose proof (roundHalfEven_near (n * 2 ^ s) d Hd) as Hm.
    set (m := Num.roundHalfEven (n * 2 ^ s) d) in *.
    set (P := 2 ^ s) in *.
    pose proof (Z.div_mod n d ltac:(lia)) as Hdm.
    pose proof (Z.mod_pos_bound n d Hd) as Hr.
    set (h := n / d) in *. set (r := n mod d) in *.
    apply Z.le_antisymm.
    + apply Z.lt_succ_r. apply Z.div_lt_upper_bound; [lia|]. nia.
    + apply Z.div_le_lower_bound; [lia|]. nia.
Qed.

(** Every whole number from 0 up to [2^53] is a binary64 number. *)
Lemma isDouble_safe (u : Z) : 0 <= u < 2 ^ 53 -> Num.isDouble u = true.
Proof.
  intros [H0 H1]. unfold Num.isDouble. rewrite (Z.abs_eq u) by lia.
  assert (Hlog : Z.log2 u <= 52).
  { destruct (Z.eq_dec u 0) as [->|Hnz]; [cbn; lia|].
    assert (Z.log2 u < 53); [|lia]. apply Z.log2_lt_pow2; lia. }
  rewrite (Z.max_l 0 (Z.log2 u - 52)) by lia.
  rewrite Z.pow_0_r, Z.mod_1_r. rewrite andb_true_r. apply Z.ltb_lt.
  assert (2 ^ 53 < 2 ^ 1024) by (apply Z.pow_lt_mono_r; lia). lia.
Qed.

(** X15. For an uptime [u] of whole seconds in the safe range,
    [0 <= u < 2^53], the hours and minutes of the uptime text are exact:
    the hours are [u] divided by 3600, the minutes are between 0 and 59,
    and hours and minutes together fall short of [u] by less than a minute.
    (The division is a binary64 division; the bound on [u] is what keeps
    its rounding below the next whole hour.) *)
Theorem uptime_hours_minutes (u : Z) :
  0 <= u < 2 ^ 53 ->
  Num.isDouble u = true
  /\ uptimeHours u = u / 3600
  /\ uptimeMinutes u = (u mod 3600) / 60
  /\ 0 <= uptimeHours u
  /\ 0 <= uptimeMinutes u < 60
  /\ 3600 * uptimeHours u + 60 * uptimeMinutes u <= u
     < 3600 * uptimeHours u + 60 * uptimeMinutes u + 60.
Proof.
  intros Hu.
  assert (Hh : uptimeHours u = u / 3600)
    by (apply floorDiv_exact; [exact Hu | lia]).
  pose proof (Z.mod_pos_bound u 3600 ltac:(lia)) as H2.
  assert (Hm : uptimeMinutes u = (u mod 3600) / 60).
  { unfold uptimeMinutes. rewrite Z.rem_mod_nonneg by lia.
    apply floorDiv_exact; [|lia]. split; [lia|].
    assert (2 ^ 12 <= 2 ^ 53) by (apply Z.pow_le_mono_r; lia).
    change (2 ^ 12) with 4096 in *. lia. }
  split; [exact (isDouble_safe u Hu)|].
  split; [exact Hh|]. split; [exact Hm|]. rewrite Hh, Hm.
  pose proof (Z.div_mod u 3600 ltac:(lia)) as H1.
  pose proof (Z.div_mod (u mod 3600) 60 ltac:(lia)) as H3.
  pose proof (Z.mod_pos_bound (u mod 3600) 60 ltac:(lia)) as H4.
  pose proof (Z.div_pos u 3600 ltac:(lia) ltac:(lia)) as H5.
  pose proof (Z.div_pos (u mod 3600) 60 ltac:(lia) ltac:(lia)) as H6.
  pose proof (Z.div_lt_upper_bound (u mod 3600) 60 60 ltac:(lia) ltac:(lia)) as H7.
  lia.
Qed.

Lemma uptime_hours_minutes_witness :
  uptimeHours 3725 = 1 /\ uptimeMinutes 3725 = 2.
Proof.
  assert (Hu : 0 <= 3725 < 2 ^ 53) by (split; [lia | reflexivity]).
  destruct (uptime_hours_minutes 3725 Hu) as (_ & Hh & Hm & _).
  split; [exact Hh | exact Hm].
Defined.

(** Beyond the safe range the hours are no longer those of the uptime.
    [10^21] is a binary64 number; the quotient by 3600 is rounded up to a
    multiple of 32, and the hours shown stand for more than the uptime. *)
Example uptimeHours_beyond_safe_range :
  Num.isDouble (10 ^ 21) = true
  /\ uptimeHours (10 ^ 21) = 277777777777777792
  /\ 10 ^ 21 / 3600 = 277777777777777777
  /\ 10 ^ 21 < 3600 * uptimeHours (10 ^ 21).
Proof. vm_compute. repeat split. Qed.

Lemma rawScore_range (ips : IpsSettings) (firewallRules : Z) :
  0 <= rawScore ips firewallRules <= 100.
Proof.
  unfold rawScore.
  destruct (modeIs ips "ips"), (modeIs ips "ids"), (ad_blocking_enabled ips),
    (dns_filtering_enabled ips), (honeypot_enabled ips),
    (Z.ltb_spec 0 firewallRules); lia.
Qed.

(** X16. The security score is between 0 and 100 for any settings and any
    number of firewall rules, and the final [Math.min(100, score)] never has
    to cut anything off.  The score is 100 exactly when the mode is [ips],
    ad blocking, DNS filtering and the honeypot are on, and there are at
    least five firewall rules; then there is no recommendation. *)
Theorem securityScore_range (ips : IpsSettings) (firewallRules : Z) :
  0 <= securityScore ips firewallRules <= 100
  /\ securityScore ips firewallRules = rawScore ips firewallRules
  /\ (securityScore ips firewallRules = 100
      <-> ips_mode ips = Some "ips"
          /\ ad_blocking_enabled ips = true
          /\ dns_filtering_enabled ips = true
          /\ honeypot_enabled ips = true
          /\ 5 <= firewallRules)
  /\ (securityScore ips firewallRules = 100 -> recommendations ips = []).
Proof.
  pose proof (rawScore_range ips firewallRules) as Hrange.
  assert (Heq : securityScore ips firewallRules = rawScore ips firewallRules)
    by (unfold securityScore; lia).
  assert (Hfull : rawScore ips firewallRules = 100
                  <-> ips_mode ips = Some "ips"
                      /\ ad_blocking_enabled ips = true
                      /\ dns_filtering_enabled ips = true
                      /\ honeypot_enabled ips = true
                      /\ 5 <= firewallRules).
  { unfold rawScore, modeIs.
    destruct (bool_decide_reflect (ips_mode ips = Some "ips")) as [Hips|Hips];
      destruct (bool_decide_reflect (ips_mode ips = Some "ids")) as [Hids|Hids];
      destruct (ad_blocking_enabled ips), (dns_filtering_enabled ips),
        (honeypot_enabled ips), (Z.ltb_spec 0 firewallRules);
      (split;
       [ intros Hs;
         first [ lia | repeat split; first [assumption | reflexivity | lia] ]
       | intros (H0 & H1 & H2 & H3 & H4); first [congruence | lia] ]). }
  rewrite Heq. split; [exact Hrange|]. split; [reflexivity|]. split; [exact Hfull|].
  intros H. apply Hfull in H. destruct H as (Hmode & Had & Hdns & Hhp & _).
  unfold recommendations, modeIs. rewrite Hmode, Had, Hdns, Hhp.
  rewrite !bool_decide_eq_false_2 by discriminate. reflexivity.
Qed.

Lemma securityScore_range_witness :
  recommendations {| ips_mode := Some "ips"; ad_blocking_enabled := true;
                     dns_filtering_enabled := true; honeypot_enabled := true |} = [].
Proof.
  apply (proj2 (proj2 (proj2 (securityScore_range
           {| ips_mode := Some "ips"; ad_blocking_enabled := true;
              dns_filtering_enabled := true; honeypot_enabled := true |} 7)))).
  reflexivity.
Defined.

Example securityScore_ex :
  securityScore {| ips_mode := Some "ids"; ad_blocking_enabled := false;
                   dns_filtering_enabled := true; honeypot_enabled := false |} 2
  = 45.
Proof. reflexivity. Qed.

(** ** The database handlers: names and handles *)

Lemma allChars_no_char (p : ascii -> bool) (c : ascii) (s : string) :
  p c = false -> allChars p s = true -> JS.includes s (String c "") = false.
Proof.
  intros Hc. induction s as [|d s IH]; [reflexivity|].
  cbn [allChars]. intros H. apply andb_prop in H. destruct H as [Hd Hs].
  rewrite includes_cons, (IH Hs), orb_false_r. simpl.
  destruct (Ascii.eqb_spec d c) as [->|_]; [congruence | reflexivity].
Qed.

(** A name that passes the test has no double quote in it. *)
Lemma validTableName_no_quote (tableName : string) :
  validTableName tableName = true -> JS.includes tableName dq = false.
Proof.
  destruct tableName as [|c rest]; [discriminate|].
  cbn [validTableName]. intros H. apply andb_prop in H. destruct H as [Hc Hrest].
  apply (allChars_no_char isIdentChar); [reflexivity|].
  cbn [allChars]. unfold isIdentChar at 1. rewrite Hc, Hrest. reflexivity.
Qed.

(** X17. [get_table_schema] puts only checked names into its statements.
    A name that fails the test (a letter or underscore, then letters, digits
    and underscores) gets [Invalid table name] and no statement is run.
    Every statement that is run is one of the three PRAGMAs or the count,
    built on a name that passed the test, so without a double quote to end
    the quoting.  Whenever a statement was run, the last call closes the
    handle. *)
Theorem get_table_schema_checks_the_name {Row : Type}
    (stringifySchema : string -> Row -> list Row -> list Row -> list Row -> string)
    (db : SchemaDb Row) (table : option string) :
  let tableName := default "undefined" table in
  let calls := fst (get_table_schema stringifySchema (Some db) table) in
  (validTableName tableName = false ->
   get_table_schema stringifySchema (Some db) table
   = ([], Returns (errorResult "Invalid table name")))
  /\ (forall sql, In sql (statements calls) ->
      validTableName tableName = true
      /\ JS.includes tableName dq = false
      /\ In sql [pragma "table_info" tableName; pragma "index_list" tableName;
                 pragma "foreign_key_list" tableName; countQuery tableName])
  /\ (calls <> [] -> exists before, calls = before ++ [CloseDb]).
Proof.
  intros tableName calls. subst calls. unfold get_table_schema. fold tableName.
  destruct (validTableName tableName) eqn:Hvalid; cbn [negb].
  - pose proof (validTableName_no_quote tableName Hvalid) as Hq.
    split; [discriminate|].
    assert (Hin : forall sql calls',
              In sql (statements calls') ->
              incl (statements calls')
                   [pragma "table_info" tableName; pragma "index_list" tableName;
                    pragma "foreign_key_list" tableName; countQuery tableName] ->
              true = true /\ JS.includes tableName dq = false
              /\ In sql [pragma "table_info" tableName; pragma "index_list" tableName;
                         pragma "foreign_key_list" tableName; countQuery tableName]).
    { intros sql calls' H Hincl. split; [reflexivity|]. split; [exact Hq|].
      apply Hincl. exact H. }
    destruct (stmtAll db (pragma "table_info" tableName)) as [[|col cols]|e].
    + split; [|intros _; exists [StmtAll (pragma "table_info" tableName)]; reflexivity].
      intros sql H. apply (Hin sql _ H). cbn. intros x [<-|[]]. left. reflexivity.
    + destruct (stmtAll db (pragma "index_list" tableName)) as [indexes|e];
        [destruct (stmtAll db (pragma "foreign_key_list" tableName)) as [fks|e];
         [destruct (stmtGet db (countQuery tableName)) as [[count|]|e]|]|];
        (split;
         [ intros sql H; apply (Hin sql _ H); cbn;
           intros x Hx; simpl in Hx; simpl; tauto
         | intros _; unfold schemaFailure; cbn [fst];
           first [ eexists; reflexivity
                 | exists [StmtAll (pragma "table_info" tableName);
                           StmtAll (pragma "index_list" tableName);
                           StmtAll (pragma "foreign_key_list" tableName);
                           StmtGet (countQuery tableName)]; reflexivity ] ]).
    + split; [|intros _; unfold schemaFailure; cbn [fst]; eexists; reflexivity].
      intros sql H. apply (Hin sql _ H). cbn. intros x [<-|[]]. left. reflexivity.
  - split; [reflexivity|]. split; [intros sql []|]. intros H. contradiction H. reflexivity.
Qed.

Lemma get_table_schema_checks_the_name_witness :
  get_table_schema demoStringifySchema (Some demoSchemaDb)
    (Some ("notes" +:+ dq +:+ "); DROP TABLE notes; --"))
  = ([], Returns (errorResult "Invalid table name")).
Proof.
  apply (proj1 (get_table_schema_checks_the_name demoStringifySchema demoSchemaDb
                  (Some ("notes" +:+ dq +:+ "); DROP TABLE notes; --")))).
  reflexivity.
Defined.

Example get_table_schema_ok :
  get_table_schema demoStringifySchema (Some demoSchemaDb) (Some "notes")
  = ([StmtAll (pragma "table_info" "notes"); StmtAll (pragma "index_list" "notes");
      StmtAll (pragma "foreign_key_list" "notes"); StmtGet (countQuery "notes");
      CloseDb],
     Returns (textResult "notes 2 id,title")).
Proof. reflexivity. Qed.

Example get_table_schema_missing_argument :
  get_table_schema demoStringifySchema (Some demoSchemaDb) None
  = ([StmtAll (pragma "table_info" "undefined"); CloseDb],
     Returns (errorResult "Table not found: undefined")).
Proof. reflexivity. Qed.

(** X18. [query_sqlite] closes the handle it was given exactly when it got
    as far as running a statement, the statement failing or not: the calls
    are then the statement and the close.  When it refuses the query, or
    finds no query, it returns without a call, the handle it opened still
    open. *)
Theorem query_sqlite_closes_after_running {Row : Type}
    (stringifyRows : nat -> list Row -> string) (db : @Database Row)
    (args : QueryArgs) :
  let calls := fst (query_sqlite stringifyRows (Some db) args) in
  (calls = [] \/ exists sql, calls = [PrepareAll sql; Close])
  /\ (In Close calls <-> executed calls <> [])
  /\ (forall q,
        query args = Some q ->
        JS.startsWith (JS.toLowerCase (JS.trim q)) "select" = false
        \/ firstForbidden (JS.toLowerCase (JS.trim q)) forbidden <> None ->
        calls = []).
Proof.
  intros calls. subst calls. unfold query_sqlite.
  destruct (query args) as [q|].
  - destruct (JS.startsWith (JS.toLowerCase (JS.trim q)) "select") eqn:Hsel; cbn [negb].
    + destruct (firstForbidden (JS.toLowerCase (JS.trim q)) forbidden) as [word|] eqn:Hf.
      * cbn [fst]. split; [left; reflexivity|]. split.
        -- split; [intros [] | intros H; contradiction H; reflexivity].
        -- intros q' _ _. reflexivity.
      * match goal with |- context [db ?sql] => destruct (db sql) end; cbn [fst];
          (split; [right; eexists; reflexivity|]; split;
           [ split; [intros _; discriminate | intros _; right; left; reflexivity]
           | intros q' [= <-] [H|H]; congruence ]).
    + cbn [fst]. split; [left; reflexivity|]. split.
      * split; [intros [] | intros H; contradiction H; reflexivity].
      * intros q' _ _. reflexivity.
  - cbn [fst]. split; [left; reflexivity|]. split.
    + split; [intros [] | intros H; contradiction H; reflexivity].
    + intros q' H. discriminate H.
Qed.

Lemma query_sqlite_closes_after_running_witness :
  fst (query_sqlite demoStringify (Some demoDb)
         {| query := Some "select 1; drop table t"; limit := None |}) = [].
Proof.
  apply (proj2 (proj2 (query_sqlite_closes_after_running demoStringify demoDb
                         {| query := Some "select 1; drop table t"; limit := None |}))
           "select 1; drop table t" eq_refl).
  right. discriminate.
Defined.

(** ** Frontmatter and wikilinks *)

Lemma drop_app_length (p r : string) : Str.drop (String.length p) (p +:+ r) = r.
Proof. induction p as [|c p IH]; [reflexivity | exact IH]. Qed.

Lemma startsWith_drop (s needle : string) :
  JS.startsWith s needle = true ->
  s = needle +:+ Str.drop (String.length needle) s.
Proof.
  intros H. apply startsWith_iff in H. destruct H as [r ->].
  rewrite drop_app_length. reflexivity.
Qed.

(** [cut] takes the string apart around the needle. *)
Lemma cut_Some (needle s before after : string) :
  Str.cut needle s = Some (before, after) ->
  s = before +:+ needle +:+ after.
Proof.
  revert before. induction s as [|c s IH]; intros before.
  - cbn [Str.cut]. destruct (JS.startsWith "" needle) eqn:Hp; [|discriminate].
    intros [= <- <-]. rewrite append_nil_l. apply startsWith_drop. exact Hp.
  - cbn [Str.cut]. destruct (JS.startsWith (String c s) needle) eqn:Hp.
    + intros [= <- <-]. rewrite append_nil_l. apply startsWith_drop. exact Hp.
    + destruct (Str.cut needle s) as [[b a]|] eqn:Hcut; [|discriminate].
      intros [= <- <-]. rewrite append_cons, (IH b eq_refl). reflexivity.
Qed.

(** A prefix is decided by as many characters as it has. *)
Lemma startsWith_app_long (x y p : string) :
  (String.length p <= String.length x)%nat ->
  JS.startsWith (x +:+ y) p = JS.startsWith x p.
Proof.
  revert x. induction p as [|c p IH]; intros x Hlen; [rewrite !startsWith_nil; reflexivity|].
  destruct x as [|d x]; [simpl in Hlen; lia|].
  rewrite append_cons. simpl. destruct (Ascii.eqb d c); [|reflexivity].
  apply IH. simpl in Hlen. lia.
Qed.

Lemma length_append (a b : string) :
  String.length (a +:+ b) = (String.length a + String.length b)%nat.
Proof. induction a as [|c a IH]; [reflexivity|]. rewrite append_cons. simpl. rewrite IH. reflexivity. Qed.

Lemma cut_here (needle s : string) :
  JS.startsWith s needle = true ->
  Str.cut needle s = Some (EmptyString, Str.drop (String.length needle) s).
Proof. intros H. destruct s; cbn [Str.cut]; rewrite H; reflexivity. Qed.

(** The first closing fence is the one after [yamlStr] when none starts
    inside [yamlStr]. *)
Lemma cut_fenceClose (yamlStr body : string) :
  JS.includes (yamlStr +:+ Str.lf +:+ "---") fenceClose = false ->
  Str.cut fenceClose (yamlStr +:+ fenceClose +:+ body) = Some (yamlStr, body).
Proof.
  induction yamlStr as [|c y IH]; intros Hinc.
  - rewrite append_nil_l, cut_here by apply startsWith_app.
    rewrite drop_app_length. reflexivity.
  - rewrite append_cons in Hinc. rewrite includes_cons in Hinc.
    apply orb_false_elim in Hinc. destruct Hinc as [Hhere Hlater].
    rewrite append_cons. cbn [Str.cut].
    assert (Hpre : JS.startsWith (String c (y +:+ fenceClose +:+ body)) fenceClose = false).
    { replace (String c (y +:+ fenceClose +:+ body))
        with (String c (y +:+ Str.lf +:+ "---") +:+ (Str.lf +:+ body)).
      - rewrite startsWith_app_long; [exact Hhere|].
        cbn [String.length]. rewrite length_append. simpl. lia.
      - rewrite append_cons. f_equal. unfold fenceClose.
        rewrite !append_assoc. reflexivity. }
    rewrite Hpre, (IH Hlater). reflexivity.
Qed.

(** X19. [parseFrontmatter] never loses text of the body: either it
    finds no frontmatter and the body is the whole content (always so when
    the content does not start with three dashes and a line feed), or the
    content is the opening fence, the text it parsed, the closing fence and
    the body, in that order. *)
Theorem parseFrontmatter_keeps_the_body (text : string) :
  (parseFrontmatter text = (∅, text)
   \/ exists yamlStr,
        text = fenceOpen +:+ yamlStr +:+ fenceClose +:+ snd (parseFrontmatter text)
        /\ fst (parseFrontmatter text) = parseYaml yamlStr)
  /\ (JS.startsWith text fenceOpen = false -> parseFrontmatter text = (∅, text)).
Proof.
  unfold parseFrontmatter.
  destruct (JS.startsWith text fenceOpen) eqn:Hopen;
    [|split; [left; reflexivity | reflexivity]].
  split; [|discriminate].
  destruct (Str.cut fenceClose (Str.drop 4 text)) as [[yamlStr body]|] eqn:Hcut;
    [|left; reflexivity].
  right. exists yamlStr. cbn [fst snd]. split; [|reflexivity].
  apply startsWith_iff in Hopen. destruct Hopen as [r Hr].
  rewrite Hr in Hcut. change 4%nat with (String.length fenceOpen) in Hcut.
  rewrite drop_app_length in Hcut. apply cut_Some in Hcut.
  rewrite Hr, Hcut. reflexivity.
Qed.

Lemma parseFrontmatter_keeps_the_body_witness :
  parseFrontmatter "# A note without frontmatter" = (∅, "# A note without frontmatter").
Proof.
  apply (proj2 (parseFrontmatter_keeps_the_body "# A note without frontmatter")).
  reflexivity.
Defined.

(** X20. Frontmatter written between the fences is read back: when no
    closing fence starts inside [yamlStr], the content made of the opening
    fence, [yamlStr], the closing fence and [body] parses to the frontmatter
    of [yamlStr] and exactly [body], whatever the body holds (more fences
    included). *)
Theorem parseFrontmatter_round_trip (yamlStr body : string) :
  JS.includes (yamlStr +:+ Str.lf +:+ "---") fenceClose = false ->
  parseFrontmatter (fenceOpen +:+ yamlStr +:+ fenceClose +:+ body)
  = (parseYaml yamlStr, body).
Proof.
  intros Hinc. unfold parseFrontmatter.
  rewrite startsWith_app.
  change 4%nat with (String.length fenceOpen). rewrite drop_app_length.
  rewrite (cut_fenceClose yamlStr body Hinc). reflexivity.
Qed.

Lemma parseFrontmatter_round_trip_witness :
  snd (parseFrontmatter
         (fenceOpen +:+ "title: T" +:+ fenceClose +:+ ("Body" +:+ fenceClose +:+ "tail")))
  = "Body" +:+ fenceClose +:+ "tail".
Proof.
  rewrite (parseFrontmatter_round_trip "title: T" ("Body" +:+ fenceClose +:+ "tail"));
    reflexivity.
Defined.

Lemma includes_char_app (c : ascii) (a b : string) :
  JS.includes (a +:+ b) (String c "")
  = JS.includes a (String c "") || JS.includes b (String c "").
Proof.
  induction a as [|d a IH].
  - rewrite append_nil_l. reflexivity.
  - rewrite append_cons, !includes_cons, IH. simpl.
    destruct (Ascii.eqb d c); [rewrite !startsWith_nil; reflexivity | reflexivity].
Qed.

Lemma cut_char (c : ascii) (before after : string) :
  JS.includes before (String c "") = false ->
  Str.cut (String c "") (before +:+ String c after) = Some (before, after).
Proof.
  induction before as [|d b IH]; intros Hinc.
  - rewrite append_nil_l. rewrite cut_here; [reflexivity|].
    simpl. rewrite Ascii.eqb_refl. apply startsWith_nil.
  - rewrite includes_cons in Hinc. apply orb_false_elim in Hinc.
    destruct Hinc as [Hhere Hlater].
    rewrite append_cons. cbn [Str.cut].
    assert (Hpre : JS.startsWith (String d (b +:+ String c after)) (String c "") = false).
    { simpl in *. destruct (Ascii.eqb d c); [|reflexivity].
      rewrite startsWith_nil in Hhere. discriminate. }
    rewrite Hpre, (IH Hlater). reflexivity.
Qed.

(** The lines of a text are read one after the other. *)
Lemma parseYaml_last_line (yamlStr line : string) :
  JS.includes line Str.lf = false ->
  parseYaml (yamlStr +:+ Str.lf +:+ line) = parseLine (parseYaml yamlStr) line.
Proof.
  intros Hline. unfold parseYaml.
  change (yamlStr +:+ Str.lf +:+ line) with (yamlStr +:+ String "010" line).
  rewrite split_app, fold_left_app, (split_no_sep _ _ Hline). reflexivity.
Qed.

(** X21. A line [key: value] at the end of the frontmatter decides the
    value of [key], whatever came before: for a key without colon, line
    feed or white space at its ends (and other than [__proto__]) and a value
    without line feed or white space at its ends that is not written as an
    inline array, the parsed frontmatter maps [key] to the text [value]. *)
Theorem parseYaml_last_line_wins (yamlStr key value : string) :
  key <> EmptyString -> JS.trim key = key ->
  JS.includes key ":" = false -> JS.includes key Str.lf = false ->
  key <> "__proto__" ->
  value <> EmptyString -> JS.trim value = value ->
  JS.includes value Str.lf = false ->
  JS.startsWith value "[" && Str.endsWith value "]" = false ->
  parseYaml (yamlStr +:+ Str.lf +:+ key +:+ ": " +:+ value) !! key
  = Some (FmString value).
Proof.
  intros Hk Hktrim Hkcolon Hklf Hkproto Hv Hvtrim Hvlf Hvarr.
  rewrite parseYaml_last_line.
  - unfold parseLine.
    change (key +:+ ": " +:+ value) with (key +:+ String ":" (" " +:+ value)).
    rewrite (cut_char ":" key _ Hkcolon).
    destruct key as [|k0 key']; [contradiction|]. cbn [JS.truthy].
    rewrite Hktrim.
    destruct (String.eqb_spec (String k0 key') "__proto__") as [E|_]; [contradiction|].
    rewrite lookup_insert_eq. f_equal. unfold parseValue.
    assert (Htrim : JS.trim (" " +:+ value) = value).
    { change (" " +:+ value) with (String " " value). exact Hvtrim. }
    rewrite Htrim. destruct value as [|v0 value']; [contradiction|].
    cbn [JS.truthy negb]. rewrite Hvarr. reflexivity.
  - unfold Str.lf in *. rewrite !includes_char_app, Hklf, Hvlf. reflexivity.
Qed.

Lemma parseYaml_last_line_wins_witness :
  parseYaml ("title: draft" +:+ Str.lf +:+ "title" +:+ ": " +:+ "Final") !! "title"
  = Some (FmString "Final").
Proof.
  apply (parseYaml_last_line_wins "title: draft" "title" "Final");
    first [reflexivity | discriminate].
Defined.

(** *** Wikilinks *)

Lemma span_spec (keep : ascii -> bool) (s run rest : string) :
  span keep s = (run, rest) ->
  allChars keep run = true /\ s = run +:+ rest.
Proof.
  revert run rest. induction s as [|c s IH]; intros run rest.
  - intros [= <- <-]. split; reflexivity.
  - cbn [span]. destruct (keep c) eqn:Hc.
    + destruct (span keep s) as [r1 r2]. intros [= <- <-].
      destruct (IH r1 r2 eq_refl) as [Hall ->]. split.
      * cbn [allChars]. rewrite Hc, Hall. reflexivity.
      * reflexivity.
    + intros [= <- <-]. split; reflexivity.
Qed.

(** The longest run is the whole of [a] when [a] is kept and what follows
    is not. *)
Lemma span_app (keep : ascii -> bool) (a : string) (c : ascii) (rest : string) :
  allChars keep a = true -> keep c = false ->
  span keep (a +:+ String c rest) = (a, String c rest).
Proof.
  intros Ha Hc. induction a as [|d a IH].
  - rewrite append_nil_l. cbn [span]. rewrite Hc. reflexivity.
  - cbn [allChars] in Ha. apply andb_prop in Ha. destruct Ha as [Hd Ha].
    rewrite append_cons. cbn [span]. rewrite Hd, (IH Ha). reflexivity.
Qed.

(** What a match gives as its first group. *)
Lemma matchLink_target (s target : string) (len : nat) :
  matchLink s = Some (target, len) ->
  target <> EmptyString /\ allChars notBracketNorBar target = true.
Proof.
  unfold matchLink. destruct (JS.startsWith s "[["); [|discriminate].
  destruct (span notBracketNorBar (Str.drop 2 s)) as [t r1] eqn:Hspan.
  destruct (span_spec _ _ _ _ Hspan) as [Hall _].
  destruct t as [|t0 t']; [discriminate|]. cbn [JS.truthy negb].
  intros H.
  assert (Ht : target = String t0 t').
  { destruct r1 as [|c r2].
    - destruct (JS.startsWith "" "]]"); [|discriminate]. congruence.
    - destruct (Ascii.eqb_spec c "|") as [->|Hne].
      + destruct (span notBracket r2) as [al r3].
        destruct (negb (JS.truthy al)); [discriminate|].
        destruct (JS.startsWith r3 "]]"); [|discriminate]. congruence.
      + assert (Hplain : match String c r2 with
                         | String "|" r2' =>
                             let '(alias, r3) := span notBracket r2' in
                             if negb (JS.truthy alias) then None
                             else if JS.startsWith r3 "]]"
                             then Some (String t0 t',
                                        (2 + String.length (String t0 t') + 1
                                         + String.length alias + 2)%nat)
                             else None
                         | _ =>
                             if JS.startsWith (String c r2) "]]"
                             then Some (String t0 t',
                                        (2 + String.length (String t0 t') + 2)%nat)
                             else None
                         end
                         = if JS.startsWith (String c r2) "]]"
                           then Some (String t0 t',
                                      (2 + String.length (String t0 t') + 2)%nat)
                           else None).
        { destruct c as [[] [] [] [] [] [] [] []]; try reflexivity.
          contradiction Hne. reflexivity. }
        rewrite Hplain in H.
        destruct (JS.startsWith (String c r2) "]]"); [|discriminate]. congruence. }
  subst target. split; [discriminate | exact Hall].
Qed.

Lemma scanLinks_targets (s : string) (skip : nat) (l : string) :
  In l (scanLinks skip s) ->
  l <> EmptyString /\ allChars notBracketNorBar l = true.
Proof.
  revert skip. induction s as [|c s IH]; intros skip; [intros []|].
  cbn [scanLinks]. destruct skip as [|k]; [|apply IH].
  destruct (matchLink (String c s)) as [[target len]|] eqn:Hm; [|apply IH].
  intros [<-|Hin]; [exact (matchLink_target _ _ _ Hm) | exact (IH _ Hin)].
Qed.

Lemma dedupe_spec (links seen : list string) :
  List.NoDup (dedupe seen links)
  /\ forall l, In l (dedupe seen links) <-> In l links /\ ~ In l seen.
Proof.
  revert seen. induction links as [|x rest IH]; intros seen.
  - split; [constructor | intros l; simpl; tauto].
  - cbn [dedupe]. destruct (has seen x) eqn:Hx.
    + destruct (IH seen) as [Hnd Hin]. split; [exact Hnd|].
      intros l. apply has_iff in Hx. split.
      * intros H. apply Hin in H. destruct H as [H1 H2].
        split; [right; exact H1 | exact H2].
      * intros [[<-|H1] H2]; [contradiction | apply Hin; split; assumption].
    + destruct (IH (x :: seen)) as [Hnd Hin].
      assert (Hnx : ~ In x seen).
      { intros H. apply has_iff in H. congruence. }
      split.
      * constructor; [|exact Hnd].
        intros H. apply Hin in H. destruct H as [_ H]. apply H. left. reflexivity.
      * intros l. split.
        -- intros [<-|H]; [split; [left; reflexivity | exact Hnx]|].
           apply Hin in H. destruct H as [H1 H2].
           split; [right; exact H1|]. intros H3. apply H2. right. exact H3.
        -- intros [[<-|H1] H2]; [left; reflexivity|].
           destruct (String.eqb_spec x l) as [->|Hne]; [left; reflexivity|].
           right. apply Hin. split; [exact H1|].
           intros [E|E]; [contradiction | contradiction].
Qed.

(** X22. The links [extractWikilinks] returns are pairwise different,
    none is empty, and none contains a closing bracket or a bar: an alias
    never ends up in a link. *)
Theorem extractWikilinks_links_are_clean (text : string) :
  List.NoDup (extractWikilinks text)
  /\ forall l, In l (extractWikilinks text) ->
       l <> EmptyString
       /\ JS.includes l "]" = false /\ JS.includes l "|" = false.
Proof.
  unfold extractWikilinks.
  destruct (dedupe_spec (scanLinks 0 text) []) as [Hnd Hin].
  split; [exact Hnd|]. intros l Hl. apply Hin in Hl. destruct Hl as [Hl _].
  destruct (scanLinks_targets _ _ _ Hl) as [Hne Hall].
  split; [exact Hne|].
  split; apply (allChars_no_char notBracketNorBar); first [reflexivity | exact Hall].
Qed.

Lemma extractWikilinks_links_are_clean_witness :
  "b/c" <> EmptyString /\ JS.includes "b/c" "]" = false /\ JS.includes "b/c" "|" = false.
Proof.
  apply (proj2 (extractWikilinks_links_are_clean "[[A]] and [[b/c|the c]]")).
  simpl. right. left. reflexivity.
Defined.

Lemma scanLinks_before (pre rest : string) :
  allChars notOpenBracket pre = true ->
  scanLinks 0 (pre +:+ rest) = scanLinks 0 rest.
Proof.
  induction pre as [|c pre IH]; intros Hpre; [reflexivity|].
  cbn [allChars] in Hpre. apply andb_prop in Hpre. destruct Hpre as [Hc Hpre].
  rewrite append_cons. cbn [scanLinks].
  assert (Hm : matchLink (String c (pre +:+ rest)) = None).
  { unfold matchLink. simpl. unfold notOpenBracket in Hc.
    destruct (Ascii.eqb c "["); [discriminate | reflexivity]. }
  rewrite Hm. exact (IH Hpre).
Qed.

Lemma matchLink_plain (target post : string) :
  target <> EmptyString -> allChars notBracketNorBar target = true ->
  matchLink ("[[" +:+ target +:+ "]]" +:+ post)
  = Some (target, (2 + String.length target + 2)%nat).
Proof.
  intros Hne Hall. unfold matchLink. rewrite startsWith_app.
  change 2%nat with (String.length "[[") at 1. rewrite drop_app_length.
  change (target +:+ "]]" +:+ post) with (target +:+ String "]" ("]" +:+ post)).
  rewrite (span_app notBracketNorBar target "]" _ Hall eq_refl).
  destruct target as [|t0 t']; [contradiction|]. cbn [JS.truthy negb].
  simpl. rewrite startsWith_nil. reflexivity.
Qed.

Lemma matchLink_alias (target alias post : string) :
  target <> EmptyString -> allChars notBracketNorBar target = true ->
  alias <> EmptyString -> allChars notBracket alias = true ->
  matchLink ("[[" +:+ target +:+ "|" +:+ alias +:+ "]]" +:+ post)
  = Some (target, (2 + String.length target + 1 + String.length alias + 2)%nat).
Proof.
  intros Hne Hall Hane Haall. unfold matchLink. rewrite startsWith_app.
  change 2%nat with (String.length "[[") at 1. rewrite drop_app_length.
  change (target +:+ "|" +:+ alias +:+ "]]" +:+ post)
    with (target +:+ String "|" (alias +:+ String "]" ("]" +:+ post))).
  rewrite (span_app notBracketNorBar target "|" _ Hall eq_refl).
  destruct target as [|t0 t']; [contradiction|]. cbn [JS.truthy negb].
  rewrite (span_app notBracket alias "]" _ Haall eq_refl).
  destruct alias as [|a0 a']; [contradiction|]. cbn [JS.truthy negb].
  simpl. rewrite startsWith_nil. reflexivity.
Qed.

(** X23. A link written out is found: in a text where no opening bracket
    comes before it, [[[target]]] gives [target] as the first link
    returned, and so does [[[target|alias]]], for a non-empty [target]
    without closing bracket or bar and a non-empty [alias] without closing
    bracket. *)
Theorem extractWikilinks_finds_the_link (pre target post : string) :
  allChars notOpenBracket pre = true ->
  target <> EmptyString ->
  allChars notBracketNorBar target = true ->
  (exists others,
     extractWikilinks (pre +:+ "[[" +:+ target +:+ "]]" +:+ post) = target :: others)
  /\ (forall alias,
        alias <> EmptyString -> allChars notBracket alias = true ->
        exists others,
          extractWikilinks (pre +:+ "[[" +:+ target +:+ "|" +:+ alias +:+ "]]" +:+ post)
          = target :: others).
Proof.
  intros Hpre Hne Hall. unfold extractWikilinks. split.
  - rewrite (scanLinks_before pre _ Hpre).
    change ("[[" +:+ target +:+ "]]" +:+ post)
      with (String "[" ("[" +:+ target +:+ "]]" +:+ post)).
    cbn [scanLinks].
    change (String "[" ("[" +:+ target +:+ "]]" +:+ post))
      with ("[[" +:+ target +:+ "]]" +:+ post).
    rewrite (matchLink_plain target post Hne Hall).
    cbn [dedupe has existsb]. eexists. reflexivity.
  - intros alias Hane Haall.
    rewrite (scanLinks_before pre _ Hpre).
    change ("[[" +:+ target +:+ "|" +:+ alias +:+ "]]" +:+ post)
      with (String "[" ("[" +:+ target +:+ "|" +:+ alias +:+ "]]" +:+ post)).
    cbn [scanLinks].
    change (String "[" ("[" +:+ target +:+ "|" +:+ alias +:+ "]]" +:+ post))
      with ("[[" +:+ target +:+ "|" +:+ alias +:+ "]]" +:+ post).
    rewrite (matchLink_alias target alias post Hne Hall Hane Haall).
    cbn [dedupe has existsb]. eexists. reflexivity.
Qed.

Lemma extractWikilinks_finds_the_link_witness :
  exists others,
    extractWikilinks ("see " +:+ "[[" +:+ "Projects/Plan" +:+ "]]" +:+ " and [[Other]]")
    = "Projects/Plan" :: others.
Proof.
  apply (proj1 (extractWikilinks_finds_the_link "see " "Projects/Plan" " and [[Other]]"
                  eq_refl ltac:(discriminate) eq_refl)).
Defined.

(** ** The UniFi client *)

Example unifi_block_client_refused :
  unifi_block_client refusingFetch (fun _ => Returns tt) demoUniFiEnv
    (Some "AA:BB:CC:DD:EE:FF")
  = ([ {| url := "https://192.168.1.1/proxy/network/api/s/default/cmd/stamgr";
          fetchMethod := POST; xApiKey := "k3y";
          jsonBody := Some [("cmd", "block-sta"); ("mac", "aa:bb:cc:dd:ee:ff")] |} ],
     Returns (errorResult "Failed to block client: UniFi API error (403): Forbidden")).
Proof. reflexivity. Qed.

Lemma lowerChar_idem (c : ascii) : JS.lowerChar (JS.lowerChar c) = JS.lowerChar c.
Proof. destruct c as [[] [] [] [] [] [] [] []]; reflexivity. Qed.

Lemma toLowerCase_idem (s : string) :
  JS.toLowerCase (JS.toLowerCase s) = JS.toLowerCase s.
Proof.
  induction s as [|c s IH]; [reflexivity|].
  cbn [JS.toLowerCase]. rewrite lowerChar_idem, IH. reflexivity.
Qed.

(** X24. Without [UNIFI_HOST] or without [UNIFI_API_KEY] (unset or empty)
    [unifi_block_client] sends nothing: no [fetch] is made and the result
    is an error result that names the two variables.  With both set it
    makes exactly one request: a POST over https to the configured host,
    on the path of the site [UNIFI_SITE] ([default] when that is unset or
    empty), with the configured key, and with the MAC in lower case. *)
Theorem unifi_block_client_requests {Data : Type}
    (fetch : FetchCall -> Outcome FetchResponse)
    (responseJson : FetchResponse -> Outcome Data)
    (env : UniFiEnv) (m : string) :
  (JS.given (UNIFI_HOST env) && JS.given (UNIFI_API_KEY env) = false ->
   unifi_block_client fetch responseJson env (Some m)
   = ([], Returns (errorResult
        "Failed to block client: UniFi not configured. Set UNIFI_HOST and UNIFI_API_KEY environment variables.")))
  /\ (forall h k,
        JS.present (UNIFI_HOST env) = Some h ->
        JS.present (UNIFI_API_KEY env) = Some k ->
        fst (unifi_block_client fetch responseJson env (Some m))
        = [ {| url := "https://" +:+ h +:+ "/proxy/network/api/s/"
                      +:+ default "default" (JS.present (UNIFI_SITE env))
                      +:+ "/cmd/stamgr";
               fetchMethod := POST;
               xApiKey := k;
               jsonBody := Some [("cmd", "block-sta"); ("mac", JS.toLowerCase m)] |} ]
        /\ JS.toLowerCase (JS.toLowerCase m) = JS.toLowerCase m
        /\ exists r, snd (unifi_block_client fetch responseJson env (Some m)) = Returns r).
Proof.
  split.
  - intros Hmissing. unfold unifi_block_client, unifiRequest, getUniFiConfig, JS.given in *.
    destruct (JS.present (UNIFI_HOST env)); [|reflexivity].
    destruct (JS.present (UNIFI_API_KEY env)); [discriminate | reflexivity].
  - intros h k Hh Hk.
    unfold unifi_block_client, unifiRequest, networkApi, getUniFiConfig.
    rewrite Hh, Hk. cbn [fmap option_fmap option_map host apiKey site].
    assert (Hs : default "default"
                   (JS.present (Some (default "default" (JS.present (UNIFI_SITE env)))))
                 = default "default" (JS.present (UNIFI_SITE env))).
    { destruct (UNIFI_SITE env) as [[|c s]|]; reflexivity. }
    rewrite Hs.
    split; [|split; [apply toLowerCase_idem|]].
    + destruct (fetch _) as [resp|e]; [|reflexivity].
      destruct (ok resp); cbn [negb].
      * destruct (responseJson resp); reflexivity.
      * destruct (responseText resp); reflexivity.
    + destruct (fetch _) as [resp|e]; [|eauto].
      destruct (ok resp); cbn [negb].
      * destruct (responseJson resp); eauto.
      * destruct (responseText resp); eauto.
Qed.

Lemma unifi_block_client_requests_witness :
  unifi_block_client refusingFetch (fun _ => Returns tt)
    {| UNIFI_HOST := Some "192.168.1.1"; UNIFI_API_KEY := Some ""; UNIFI_SITE := None |}
    (Some "AA:BB:CC:DD:EE:FF")
  = ([], Returns (errorResult
       "Failed to block client: UniFi not configured. Set UNIFI_HOST and UNIFI_API_KEY environment variables."))
  /\ fst (unifi_block_client refusingFetch (fun _ => Returns tt) demoUniFiEnv
            (Some "AA:BB:CC:DD:EE:FF"))
     = [ {| url := "https://192.168.1.1/proxy/network/api/s/default/cmd/stamgr";
            fetchMethod := POST; xApiKey := "k3y";
            jsonBody := Some [("cmd", "block-sta"); ("mac", "aa:bb:cc:dd:ee:ff")] |} ].
Proof.
  split.
  - apply (proj1 (unifi_block_client_requests refusingFetch (fun _ => Returns tt)
                    {| UNIFI_HOST := Some "192.168.1.1"; UNIFI_API_KEY := Some "";
                       UNIFI_SITE := None |} "AA:BB:CC:DD:EE:FF")).
    reflexivity.
  - apply (proj1 (proj2 (unifi_block_client_requests refusingFetch (fun _ => Returns tt)
                           demoUniFiEnv "AA:BB:CC:DD:EE:FF") "192.168.1.1" "k3y"
                    eq_refl eq_refl)).
Defined.

(** ** The matches of [search_notes] *)

Example noteMatches_ex :
  noteMatches false "TODO" ("# Plan" +:+ Str.lf +:+ "todo: write" +:+ Str.lf +:+ "done")
  = Some [(2%nat, "todo: write")].
Proof. reflexivity. Qed.

(** A query that runs over a line break: the note is recorded, with no
    line. *)
Example noteMatches_across_lines :
  noteMatches true ("a" +:+ Str.lf +:+ "b") ("xa" +:+ Str.lf +:+ "by") = Some [].
Proof. reflexivity. Qed.

Lemma takeChars_length (n : nat) (s : string) :
  (String.length (takeChars n s) <= n)%nat.
Proof.
  revert s. induction n as [|n IH]; intros s; [destruct s; simpl; lia|].
  destruct s as [|c s]; simpl; [lia|]. specialize (IH s). lia.
Qed.

Lemma lineMatches_spec (caseSensitive : bool) (searchPattern : string)
    (lines : list string) (i n : nat) (t : string) :
  In (n, t) (lineMatches caseSensitive searchPattern i lines) ->
  (i < n <= i + length lines)%nat
  /\ exists line,
       nth_error lines (n - 1 - i) = Some line
       /\ t = takeChars 200 line
       /\ JS.includes (if caseSensitive then line else JS.toLowerCase line)
                      searchPattern = true.
Proof.
  revert i. induction lines as [|line rest IH]; intros i; [intros []|].
  cbn [lineMatches].
  assert (Hrest : In (n, t) (lineMatches caseSensitive searchPattern (S i) rest) ->
                  (i < n <= i + length (line :: rest))%nat
                  /\ exists l, nth_error (line :: rest) (n - 1 - i) = Some l
                       /\ t = takeChars 200 l
                       /\ JS.includes (if caseSensitive then l else JS.toLowerCase l)
                                      searchPattern = true).
  { intros H. destruct (IH (S i) H) as [Hn (l & Hl & Ht & Hinc)].
    split; [simpl; lia|]. exists l.
    replace (n - 1 - i)%nat with (S (n - 1 - S i)) by lia.
    repeat split; assumption. }
  destruct (JS.includes (if caseSensitive then line else JS.toLowerCase line)
                        searchPattern) eqn:Hinc; [|exact Hrest].
  intros [H|H]; [|exact (Hrest H)].
  injection H as <- <-. split; [simpl; lia|].
  exists line. replace (i + 1 - 1 - i)%nat with 0%nat by lia.
  repeat split. exact Hinc.
Qed.

(** X25. For every note [search_notes] records, it keeps at most five
    line matches; each match gives the number of a line of the note,
    counted from 1, and the text of that line cut at 200 code units; and
    that line includes the query (both lower-cased unless the search is
    case sensitive). *)
Theorem noteMatches_are_bounded (caseSensitive : bool)
    (queryText fileText : string) (matches : list (nat * string)) :
  noteMatches caseSensitive queryText fileText = Some matches ->
  (length matches <= 5)%nat
  /\ forall n t, In (n, t) matches ->
       (1 <= n <= length (JS.split "010" fileText))%nat
       /\ (String.length t <= 200)%nat
       /\ exists line,
            nth_error (JS.split "010" fileText) (n - 1) = Some line
            /\ t = takeChars 200 line
            /\ JS.includes (if caseSensitive then line else JS.toLowerCase line)
                           (if caseSensitive then queryText
                            else JS.toLowerCase queryText) = true.
Proof.
  unfold noteMatches. destruct (JS.includes _ _); [|discriminate].
  intros [= <-]. split; [apply List.firstn_le_length|].
  intros n t Hin.
  assert (Hall : In (n, t) (lineMatches caseSensitive
                              (if caseSensitive then queryText
                               else JS.toLowerCase queryText)
                              0 (JS.split "010" fileText))).
  { rewrite <- (List.firstn_skipn 5). apply in_or_app. left. exact Hin. }
  destruct (lineMatches_spec _ _ _ _ _ _ Hall) as [Hn (line & Hline & Ht & Hinc)].
  split; [lia|]. split; [rewrite Ht; apply takeChars_length|].
  exists line. rewrite Nat.sub_0_r in Hline. repeat split; assumption.
Qed.

Lemma noteMatches_are_bounded_witness :
  (length [(2%nat, "todo: write")] <= 5)%nat.
Proof.
  apply (proj1 (noteMatches_are_bounded false "TODO"
                  ("# Plan" +:+ Str.lf +:+ "todo: write" +:+ Str.lf +:+ "done")
                  [(2%nat, "todo: write")] eq_refl)).
Defined.

